(** * Importing Jupyter notebooks as modules: the import hook

    A shallow embedding of the import hook of "Importing Notebooks.ipynb"
    ([find_notebook], [NotebookLoader], [NotebookFinder]) and the
    properties of it that the specification states, followed by the
    notebook display helper and the vector and matrix helpers of
    "linear_algebra.ipynb".

    Conventions.
    - Python [str] is [string]; [None]-or-value is [option].
    - The file system is a finite map from path to file content; a
      notebook file is either a well-formed document or not.
    - Objects with identity (modules, loaders, the finder) live in a heap
      indexed by locations; a module is identified with its [__dict__].
    - Statements run in a state-and-exception monad [M]: an exception
      keeps the state reached so far, as in Python.
    - [exec] and IPython's [transform_cell] belong to the host, not to the
      notebook: the import hook is modelled over an arbitrary semantics
      for them, and a small interpreter for integer assignments is used
      for the concrete runs. *)

From Stdlib Require Import ZArith Ascii.
From stdpp Require Import base option list strings gmap fin_maps.

Local Open Scope string_scope.

(** ** Python string operations used by the resolver *)

Module Py.

(** [s.startswith('/')] *)
Definition startswith_sep (s : string) : bool :=
  match s with
  | String c _ => bool_decide (c = "/"%char)
  | EmptyString => false
  end.

(** [s.endswith('/')] *)
Fixpoint endswith_sep (s : string) : bool :=
  match s with
  | EmptyString => false
  | String c EmptyString => bool_decide (c = "/"%char)
  | String _ r => endswith_sep r
  end.

(** Truth value of a string: the empty string is false. *)
Definition str_truthy (s : string) : bool :=
  match s with
  | EmptyString => false
  | String _ _ => true
  end.

(** [posixpath.join(a, b)]: an absolute [b] discards [a]; otherwise a
    separator is inserted unless [a] is empty or already ends with one. *)
Definition path_join (a b : string) : string :=
  if startswith_sep b then b
  else if negb (str_truthy a) || endswith_sep a then a +:+ b
  else a +:+ "/" +:+ b.

(** [s.replace("_", " ")] *)
Fixpoint replace_underscore (s : string) : string :=
  match s with
  | EmptyString => EmptyString
  | String c r =>
      String (if bool_decide (c = "_"%char) then " "%char else c)
             (replace_underscore r)
  end.

(** The text after the last ['.'] of [s], when [s] has one. *)
Fixpoint after_last_dot (s : string) : option string :=
  match s with
  | EmptyString => None
  | String c r =>
      match after_last_dot r with
      | Some t => Some t
      | None => if bool_decide (c = "."%char) then Some r else None
      end
  end.

(** [s.rsplit('.', 1)[-1]] *)
Definition rsplit_last (s : string) : string :=
  default s (after_last_dot s).

(** [sep.join(l)] with [sep = os.path.sep = '/'] *)
Fixpoint sep_join (l : list string) : string :=
  match l with
  | [] => ""
  | [d] => d
  | d :: ds => d +:+ "/" +:+ sep_join ds
  end.

(** ['.' in s] *)
Fixpoint has_dot (s : string) : bool :=
  match s with
  | EmptyString => false
  | String c r => bool_decide (c = "."%char) || has_dot r
  end.

(** ['_' in s] *)
Fixpoint has_underscore (s : string) : bool :=
  match s with
  | EmptyString => false
  | String c r => bool_decide (c = "_"%char) || has_underscore r
  end.

End Py.

(** ** The name resolver: [find_notebook] *)

Section Resolver.

(** [os.path.isfile], a view of the current file system. *)
Variable isfile : string → bool.

(** Truth value of the [path] argument: [None] and [[]] are false. *)
Definition path_truthy (path : option (list string)) : bool :=
  match path with
  | None | Some [] => false
  | Some (_ :: _) => true
  end.

(** The [for d in path] loop of [find_notebook]. *)
Fixpoint find_in (name : string) (path : list string) : option string :=
  match path with
  | [] => None
  | d :: ds =>
      let nb_path := Py.path_join d (name +:+ ".ipynb") in
      if isfile nb_path then Some nb_path
      else
        let nb_path := Py.replace_underscore nb_path in
        if isfile nb_path then Some nb_path
        else find_in name ds
  end.

(** The list the loop iterates over: [if not path: path = ['']]. *)
Definition search_dirs (path : option (list string)) : list string :=
  if negb (path_truthy path) then [""] else default [] path.

Definition find_notebook (fullname : string) (path : option (list string))
  : option string :=
  let name := Py.rsplit_last fullname in
  find_in name (search_dirs path).

(** The two file names probed in a directory [d], in probing order. *)
Definition primary (d name : string) : string :=
  Py.path_join d (name +:+ ".ipynb").

Definition fallback (d name : string) : string :=
  Py.replace_underscore (primary d name).

End Resolver.

(** ** Interpreter state *)

(** Object identities. *)
Definition loc := positive.

Inductive exn :=
| TypeError
| AttributeError
| KeyError
| FileNotFoundError
| NotJSONError
| SyntaxError
| NameError (name : string)
| OtherError (msg : string).

Inductive result (A : Type) :=
| Ok (a : A)
| Raise (e : exn).
Arguments Ok {A} a.
Arguments Raise {A} e.

Inductive value :=
| VNone
| VInt (z : Z)
| VStr (s : string)
| VObj (l : loc)
| VGetIPython
| VBuiltins.

(** A notebook cell: the loader reads only [cell_type] and [source]. *)
Record cell := Cell { cell_type : string; source : string }.

Record notebook := Notebook { cells : list cell }.

(** What [nbformat.read] makes of a file. *)
Inductive file :=
| WellFormed (nb : notebook)
| Malformed.

Inductive object :=
| Module (dict : gmap string value)
| Loader (path : option (list string))
| Finder (loaders : gmap (option string) loc).

Record state := State {
  sys_modules : gmap string loc;   (* sys.modules *)
  user_ns : loc;                   (* InteractiveShell.instance().user_ns *)
  heap : gmap loc object;
  fs : gmap string file;
  stdout : list string
}.

Definition set_sys_modules (r : gmap string loc) (st : state) : state :=
  State r (user_ns st) (heap st) (fs st) (stdout st).

Definition set_user_ns (u : loc) (st : state) : state :=
  State (sys_modules st) u (heap st) (fs st) (stdout st).

Definition set_heap (h : gmap loc object) (st : state) : state :=
  State (sys_modules st) (user_ns st) h (fs st) (stdout st).

Definition set_stdout (o : list string) (st : state) : state :=
  State (sys_modules st) (user_ns st) (heap st) (fs st) o.

(** [os.path.isfile] in a given state. *)
Definition isfile_in (files : gmap string file) (p : string) : bool :=
  bool_decide (is_Some (files !! p)).

(** ** The state-and-exception monad *)

Definition M (A : Type) : Type := state → result A * state.

Definition ret {A} (a : A) : M A := λ st, (Ok a, st).

Definition raise {A} (e : exn) : M A := λ st, (Raise e, st).

Definition bind {A B} (m : M A) (k : A → M B) : M B := λ st,
  match m st with
  | (Ok a, st') => k a st'
  | (Raise e, st') => (Raise e, st')
  end.

(** [try: body finally: fin]: [fin] runs on both exits; an exception of
    [fin] replaces the pending one. *)
Definition try_finally {A} (body : M A) (fin : M unit) : M A := λ st,
  match body st with
  | (r, st') =>
      match fin st' with
      | (Ok _, st'') => (r, st'')
      | (Raise e, st'') => (Raise e, st'')
      end
  end.

Definition lift {A} (r : result A) : M A := λ st, (r, st).

#[global] Instance M_ret : MRet M := @ret.
#[global] Instance M_bind : MBind M := λ A B k m, bind m k.

(** ** Primitive statements *)

(** Object creation: a location not yet in the heap. *)
Definition alloc (o : object) : M loc := λ st,
  let l := fresh (dom (heap st)) in
  (Ok l, set_heap (<[l := o]> (heap st)) st).

(** [m.__dict__[k] = v], also what [m.k = v] does on a module. *)
Definition setitem (m : loc) (k : string) (v : value) : M unit := λ st,
  match heap st !! m with
  | Some (Module d) =>
      (Ok tt, set_heap (<[m := Module (<[k := v]> d)]> (heap st)) st)
  | _ => (Raise AttributeError, st)
  end.

(** [types.ModuleType(name)]: a new module whose [__dict__] holds the five
    attributes every module object starts with. *)
Definition ModuleType_dict (name : string) : gmap string value :=
  <["__name__" := VStr name]>
    (<["__doc__" := VNone]>
      (<["__package__" := VNone]>
        (<["__loader__" := VNone]>
          (<["__spec__" := VNone]> ∅)))).

Definition ModuleType (name : string) : M loc :=
  alloc (Module (ModuleType_dict name)).

(** ["%s" % path] *)
Definition format_s (path : option string) : string :=
  default "None" path.

Definition print (line : string) : M unit := λ st,
  (Ok tt, set_stdout (stdout st ++ [line]) st).

(** [with io.open(path, 'r', encoding='utf-8') as f: nb = read(f, 4)] *)
Definition open_read (path : option string) : M notebook := λ st,
  match path with
  | None => (Raise TypeError, st)
  | Some p =>
      match fs st !! p with
      | None => (Raise FileNotFoundError, st)
      | Some Malformed => (Raise NotJSONError, st)
      | Some (WellFormed nb) => (Ok nb, st)
      end
  end.

(** The value of an optional string: [None] or the [str]. *)
Definition str_or_none (o : option string) : value :=
  match o with
  | Some s => VStr s
  | None => VNone
  end.

(** [sys.modules[name] = m] *)
Definition register (name : string) (m : loc) : M unit := λ st,
  (Ok tt, set_sys_modules (<[name := m]> (sys_modules st)) st).

(** [self.shell.user_ns] *)
Definition get_user_ns : M loc := λ st, (Ok (user_ns st), st).

(** [self.shell.user_ns = u] *)
Definition put_user_ns (u : loc) : M unit := λ st,
  (Ok tt, set_user_ns u st).

(** [find_notebook] against the file system of the current state. *)
Definition find_notebook_now (fullname : string)
    (path : option (list string)) : M (option string) := λ st,
  (Ok (find_notebook (isfile_in (fs st)) fullname path), st).

(** [self.path] of a [NotebookLoader]. *)
Definition loader_path (self : loc) : M (option (list string)) := λ st,
  match heap st !! self with
  | Some (Loader p) => (Ok p, st)
  | _ => (Raise AttributeError, st)
  end.

(** [self.loaders] of a [NotebookFinder]. *)
Definition finder_loaders (self : loc) : M (gmap (option string) loc) := λ st,
  match heap st !! self with
  | Some (Finder ls) => (Ok ls, st)
  | _ => (Raise AttributeError, st)
  end.

(** ** The loader: [NotebookLoader] *)

Section Loader.

(** [shell.input_transformer_manager.transform_cell]: source text to
    plain Python, or an exception. *)
Variable transform_cell : string → result string.

(** [exec(code, globals)]: runs [code] against the dictionary of the
    module at the given location; it may do anything to the state. *)
Variable exec : string → loc → M unit.

(** [NotebookLoader(path)]: the shell attribute is the singleton shell
    whose [user_ns] the state carries. *)
Definition NotebookLoader (path : option (list string)) : M loc :=
  alloc (Loader path).

(** The body of [for cell in nb.cells]. *)
Definition run_cell (mod_ : loc) (c : cell) : M unit :=
  if String.eqb (cell_type c) "code" then
    code ← lift (transform_cell (source c));
    exec code mod_
  else ret tt.

Fixpoint run_cells (mod_ : loc) (cs : list cell) : M unit :=
  match cs with
  | [] => ret tt
  | c :: cs' => run_cell mod_ c;; run_cells mod_ cs'
  end.

Definition load_module (self : loc) (fullname : string) : M loc :=
  self_path ← loader_path self;
  path ← find_notebook_now fullname self_path;
  print ("importing Jupyter notebook from " +:+ format_s path);;
  nb ← open_read path;
  mod_ ← ModuleType fullname;
  setitem mod_ "__file__" (str_or_none path);;
  setitem mod_ "__loader__" (VObj self);;
  setitem mod_ "get_ipython" VGetIPython;;
  register fullname mod_;;
  save_user_ns ← get_user_ns;
  put_user_ns mod_;;
  try_finally (run_cells mod_ (cells nb)) (put_user_ns save_user_ns);;
  ret mod_.

End Loader.

(** ** The finder: [NotebookFinder] *)

(** A dictionary key as the finder computes it. *)
Inductive pykey :=
| KNone
| KStr (s : string)
| KList (l : list string).

(** Hashing a key: lists are not hashable. *)
Definition hash_key (k : pykey) : result (option string) :=
  match k with
  | KNone => Ok None
  | KStr s => Ok (Some s)
  | KList _ => Raise TypeError
  end.

(** [key = path; if path: key = os.path.sep.join(path)] *)
Definition finder_key (path : option (list string)) : pykey :=
  if path_truthy path then KStr (Py.sep_join (default [] path))
  else match path with
       | None => KNone
       | Some l => KList l
       end.

(** Truth value of [find_notebook]'s result. *)
Definition result_truthy (nb_path : option string) : bool :=
  match nb_path with
  | None => false
  | Some p => Py.str_truthy p
  end.

(** [NotebookFinder()] *)
Definition NotebookFinder : M loc := alloc (Finder ∅).

(** [self.loaders[k] = l] *)
Definition set_loader (self : loc) (k : option string) (l : loc) : M unit :=
  λ st,
  match heap st !! self with
  | Some (Finder ls) =>
      (Ok tt, set_heap (<[self := Finder (<[k := l]> ls)]> (heap st)) st)
  | _ => (Raise AttributeError, st)
  end.

Definition find_module (self : loc) (fullname : string)
    (path : option (list string)) : M (option loc) :=
  nb_path ← find_notebook_now fullname path;
  if negb (result_truthy nb_path) then ret None
  else
    let key := finder_key path in
    ls ← finder_loaders self;
    k ← lift (hash_key key);
    (if negb (bool_decide (is_Some (ls !! k))) then
       l ← NotebookLoader path;
       set_loader self k l
     else ret tt);;
    ls ← finder_loaders self;
    match ls !! k with
    | Some l => ret (Some l)
    | None => raise KeyError
    end.

(** ** A concrete host: integer assignments

    An instance of [transform_cell] and [exec] for cells whose lines are
    assignments [NAME = atom + ... + atom], an atom being a decimal
    literal or a name bound in the namespace. It follows Python on that
    fragment (the whole cell is compiled before any line runs, operands
    are evaluated left to right, [exec] adds [__builtins__] to the
    globals); text outside the fragment is rejected with [SyntaxError]. *)

Module Mini.

Inductive atom :=
| ALit (z : Z)
| AName (x : string).

Record assign := Assign { target : string; first : atom; rest : list atom }.

Definition newline : ascii := ascii_of_nat 10.

Definition is_digit (c : ascii) : bool :=
  (48 <=? nat_of_ascii c)%nat && (nat_of_ascii c <=? 57)%nat.

Definition is_letter (c : ascii) : bool :=
  ((65 <=? nat_of_ascii c)%nat && (nat_of_ascii c <=? 90)%nat)
  || ((97 <=? nat_of_ascii c)%nat && (nat_of_ascii c <=? 122)%nat)
  || bool_decide (c = "_"%char).

Fixpoint all_chars (p : ascii → bool) (s : string) : bool :=
  match s with
  | EmptyString => true
  | String c r => p c && all_chars p r
  end.

Definition is_ident (s : string) : bool :=
  match s with
  | EmptyString => false
  | String c r => is_letter c && all_chars (λ c, is_letter c || is_digit c) r
  end.

Fixpoint digits_value (acc : Z) (s : string) : Z :=
  match s with
  | EmptyString => acc
  | String c r => digits_value (10 * acc + Z.of_nat (nat_of_ascii c - 48)) r
  end.

Definition parse_atom (tok : string) : option atom :=
  if Py.str_truthy tok && all_chars is_digit tok then
    Some (ALit (digits_value 0 tok))
  else if is_ident tok then Some (AName tok)
  else None.

(** The tokens after the first operand: [+ atom] repeated. *)
Fixpoint parse_rest (toks : list string) : option (list atom) :=
  match toks with
  | [] => Some []
  | plus :: tok :: toks' =>
      if String.eqb plus "+" then
        a ← parse_atom tok;
        as_ ← parse_rest toks';
        Some (a :: as_)
      else None
  | _ => None
  end.

Definition parse_line (toks : list string) : option assign :=
  match toks with
  | x :: eq :: tok :: toks' =>
      if is_ident x && String.eqb eq "=" then
        a ← parse_atom tok;
        as_ ← parse_rest toks';
        Some (Assign x a as_)
      else None
  | _ => None
  end.

(** Split at newlines. *)
Fixpoint lines_go (cur : string) (s : string) : list string :=
  match s with
  | EmptyString => [String.rev cur]
  | String c r =>
      if bool_decide (c = newline) then String.rev cur :: lines_go "" r
      else lines_go (String c cur) r
  end.

Definition lines (s : string) : list string := lines_go "" s.

(** Compile a cell: every non-blank line must be an assignment. *)
Fixpoint compile_lines (ls : list string) : option (list assign) :=
  match ls with
  | [] => Some []
  | l :: ls' =>
      match String.words l with
      | [] => compile_lines ls'
      | toks =>
          a ← parse_line toks;
          as_ ← compile_lines ls';
          Some (a :: as_)
      end
  end.

Definition compile (code : string) : option (list assign) :=
  compile_lines (lines code).

Definition eval_atom (d : gmap string value) (a : atom) : result value :=
  match a with
  | ALit z => Ok (VInt z)
  | AName x =>
      match d !! x with
      | Some v => Ok v
      | None => Raise (NameError x)
      end
  end.

(** Python's [+] on the values of the model. *)
Definition add (v w : value) : result value :=
  match v, w with
  | VInt a, VInt b => Ok (VInt (a + b))
  | VStr a, VStr b => Ok (VStr (a +:+ b))
  | _, _ => Raise TypeError
  end.

Fixpoint eval_rest (d : gmap string value) (acc : value) (as_ : list atom)
  : result value :=
  match as_ with
  | [] => Ok acc
  | a :: as' =>
      match eval_atom d a with
      | Ok w =>
          match add acc w with
          | Ok acc' => eval_rest d acc' as'
          | Raise e => Raise e
          end
      | Raise e => Raise e
      end
  end.

Definition eval_assign (d : gmap string value) (s : assign)
  : result (gmap string value) :=
  match eval_atom d (first s) with
  | Ok v =>
      match eval_rest d v (rest s) with
      | Ok w => Ok (<[target s := w]> d)
      | Raise e => Raise e
      end
  | Raise e => Raise e
  end.

(** Run the statements in order; an exception keeps the bindings made
    so far. *)
Fixpoint run (d : gmap string value) (prog : list assign)
  : result unit * gmap string value :=
  match prog with
  | [] => (Ok tt, d)
  | s :: prog' =>
      match eval_assign d s with
      | Ok d' => run d' prog'
      | Raise e => (Raise e, d)
      end
  end.

(** [exec] adds [__builtins__] to globals that lack it. *)
Definition with_builtins (d : gmap string value) : gmap string value :=
  match d !! "__builtins__" with
  | Some _ => d
  | None => <["__builtins__" := VBuiltins]> d
  end.

Definition exec (code : string) (g : loc) : M unit := λ st,
  match heap st !! g with
  | Some (Module d) =>
      let d := with_builtins d in
      match compile code with
      | None =>
          (Raise SyntaxError, set_heap (<[g := Module d]> (heap st)) st)
      | Some prog =>
          let '(r, d') := run d prog in
          (r, set_heap (<[g := Module d']> (heap st)) st)
      end
  | _ => (Raise TypeError, st)
  end.

(** [transform_cell] on plain Python: the text, newline-terminated. *)
Fixpoint ends_with_newline (s : string) : bool :=
  match s with
  | EmptyString => false
  | String c EmptyString => bool_decide (c = newline)
  | String _ r => ends_with_newline r
  end.

Definition transform_cell (src : string) : result string :=
  Ok (if ends_with_newline src then src else src +:+ String newline "").

End Mini.

(** ** Notions used in the statements *)

(** [name] is the last dotted segment of [fullname]: it has no dot, and
    [fullname] is [name] or ends with a dot followed by [name]. *)
Definition is_last_segment (fullname name : string) : Prop :=
  Py.has_dot name = false ∧
  (fullname = name ∨ ∃ pre, fullname = pre +:+ "." +:+ name).

(** Neither probe of directory [d] hits a file. *)
Definition no_match (isfile : string → bool) (name d : string) : Prop :=
  isfile (primary d name) = false ∧ isfile (fallback d name) = false.

(** The sources of the executable fragments, in document order. *)
Definition code_sources (cs : list cell) : list string :=
  source <$> filter (λ c, cell_type c = "code") cs.

(** Transform and execute the given sources one after the other against
    the module [m], stopping at the first exception. *)
Fixpoint exec_sources (transform_cell : string → result string)
    (exec : string → loc → M unit) (m : loc) (srcs : list string) : M unit :=
  match srcs with
  | [] => ret tt
  | s :: srcs' =>
      (code ← lift (transform_cell s); exec code m);;
      exec_sources transform_cell exec m srcs'
  end.

(** The namespace of a module imported as [fullname] from file [f] by the
    loader [self], before any fragment has run. *)
Definition initial_dict (fullname f : string) (self : loc)
  : gmap string value :=
  list_to_map
    [("__name__", VStr fullname); ("__doc__", VNone); ("__package__", VNone);
     ("__spec__", VNone); ("__loader__", VObj self); ("__file__", VStr f);
     ("get_ipython", VGetIPython)].

(** The state in which the fragments start to run: the new module is
    allocated, registered, and installed as the shell's user namespace. *)
Definition module_ready (self : loc) (fullname f : string) (st : state)
  : state :=
  let m := fresh (dom (heap st)) in
  State (<[fullname := m]> (sys_modules st)) m
        (<[m := Module (initial_dict fullname f self)]> (heap st))
        (fs st)
        (stdout st ++ ["importing Jupyter notebook from " +:+ f]).

(** [m.__dict__] in state [st]. *)
Definition dict_of (st : state) (m : loc) : gmap string value :=
  match heap st !! m with
  | Some (Module d) => d
  | _ => ∅
  end.

(** The file and the document [load_module] gets to read in state [st]:
    [self] is a loader, [find_notebook] finds a file for its path, and
    the file parses. *)
Definition located (st : state) (self : loc) (fullname : string)
  : option (string * notebook) :=
  match heap st !! self with
  | Some (Loader p) =>
      match find_notebook (isfile_in (fs st)) fullname p with
      | Some f =>
          match fs st !! f with
          | Some (WellFormed nb) => Some (f, nb)
          | _ => None
          end
      | None => None
      end
  | _ => None
  end.

(** Leaving [load_module]: the saved user namespace is put back and the
    module is returned unless a fragment raised. *)
Definition finish (m saved : loc) (out : result unit * state)
  : result loc * state :=
  (match out.1 with Ok _ => Ok m | Raise e => Raise e end,
   set_user_ns saved out.2).

(** The finder's cache holds loaders other than the finder itself, one
    location per key. *)
Definition finder_wf (st : state) (self : loc) : Prop :=
  ∃ ls, heap st !! self = Some (Finder ls) ∧
    (∀ k l, ls !! k = Some l → l ≠ self ∧ l ∈ dom (heap st)) ∧
    (∀ k1 k2 l, ls !! k1 = Some l → ls !! k2 = Some l → k1 = k2).

(** [exec] never unbinds or rebinds a name of the module registry. *)
Definition keeps_registry (exec : string → loc → M unit) : Prop :=
  ∀ code g st n l,
    sys_modules st !! n = Some l →
    sys_modules (exec code g st).2 !! n = Some l.

(** [exec] never frees an object. *)
Definition keeps_objects (exec : string → loc → M unit) : Prop :=
  ∀ code g st, dom (heap st) ⊆ dom (heap (exec code g st).2).

(** The concrete host on the dictionary alone: what one cell, and a list
    of cells, do to the module's [__dict__]. *)
Definition mini_cell (d : gmap string value) (src : string)
  : result unit * gmap string value :=
  match Mini.transform_cell src with
  | Ok code =>
      match Mini.compile code with
      | None => (Raise SyntaxError, Mini.with_builtins d)
      | Some prog => Mini.run (Mini.with_builtins d) prog
      end
  | Raise e => (Raise e, d)
  end.

Fixpoint mini_cells (d : gmap string value) (srcs : list string)
  : result unit * gmap string value :=
  match srcs with
  | [] => (Ok tt, d)
  | s :: srcs' =>
      match mini_cell d s with
      | (Ok _, d') => mini_cells d' srcs'
      | (Raise e, d') => (Raise e, d')
      end
  end.

(** ** Concrete inputs *)

Module Ex.

Definition main : loc := 1%positive.
Definition loader : loc := 2%positive.
Definition finder : loc := 3%positive.

Definition nb_xy : notebook :=
  Notebook [Cell "markdown" "# two cells";
            Cell "code" "x = 1"; Cell "code" "y = x + 1"].

Definition nb_fails : notebook :=
  Notebook [Cell "code" "x = 1"; Cell "code" "y = z + 1";
            Cell "code" "w = 3"].

Definition nb_prose : notebook :=
  Notebook [Cell "markdown" "no code here"].

Definition nb_reads_file : notebook :=
  Notebook [Cell "code" "y = __file__"].

Definition files : gmap string file :=
  list_to_map
    [("xy.ipynb", WellFormed nb_xy); ("fails.ipynb", WellFormed nb_fails);
     ("prose.ipynb", WellFormed nb_prose);
     ("reads.ipynb", WellFormed nb_reads_file);
     ("a/m.ipynb", WellFormed nb_xy); ("a/b/m.ipynb", WellFormed nb_prose)].

Definition objects : gmap loc object :=
  list_to_map
    [(main, Module ∅); (loader, Loader None); (finder, Finder ∅)].

Definition st0 : state := State ∅ main objects files [].

(** A directory with an underscore that holds only [Foo Bar.ipynb]. *)
Definition underscore_dir : gmap string file :=
  {[ "my_dir/Foo Bar.ipynb" := WellFormed nb_xy ]}.

(** The same notebook under the directory spelled with a space. *)
Definition space_dir : gmap string file :=
  {[ "my dir/Foo Bar.ipynb" := WellFormed nb_xy ]}.

End Ex.

(** ** The linear-algebra helpers of [linear_algebra.ipynb]

    The helpers are duck-typed; they are modelled here on Python
    integers only ([int], unbounded, as [Z]), and nothing below speaks
    about floats, where [+] and [*] round. Vectors are lists of
    integers and matrices lists of rows. [zip] stops at the shorter
    list, subscripts follow Python (negative ones count from the end,
    others raise [IndexError]), and a list comprehension evaluates left
    to right and stops at the first exception. *)

Module LinAlg.

Local Open Scope Z_scope.

Inductive error :=
| IndexError
| ArithmeticError.

Inductive res (A : Type) :=
| Val (a : A)
| Err (e : error).
Arguments Val {A} a.
Arguments Err {A} e.

(** [sum(xs)]: starts from 0 and adds from the left. *)
Definition py_sum (xs : list Z) : Z := foldl Z.add 0 xs.

(** [len(l)] *)
Definition len {A} (l : list A) : Z := Z.of_nat (length l).

(** [range(n)] *)
Definition range (n : Z) : list Z := Z.of_nat <$> seq 0%nat (Z.to_nat n).

(** [l[i]] *)
Definition index {A} (l : list A) (i : Z) : res A :=
  let k := if i <? 0 then i + len l else i in
  if (0 <=? k) && (k <? len l) then
    match l !! Z.to_nat k with
    | Some x => Val x
    | None => Err IndexError
    end
  else Err IndexError.

(** [[f(x) for x in l]] with an [f] that may raise. *)
Fixpoint comprehension {A B} (f : A → res B) (l : list A) : res (list B) :=
  match l with
  | [] => Val []
  | x :: l' =>
      match f x with
      | Err e => Err e
      | Val y =>
          match comprehension f l' with
          | Err e => Err e
          | Val ys => Val (y :: ys)
          end
      end
  end.

(** [A[i][j]] *)
Definition entry (A : list (list Z)) (i j : Z) : res Z :=
  match index A i with
  | Err e => Err e
  | Val A_i => index A_i j
  end.

(** On integer vectors. *)
Definition vector_add (v w : list Z) : list Z :=
  (λ p, p.1 + p.2) <$> zip v w.

(** On integer vectors. *)
Definition vector_subtract (v w : list Z) : list Z :=
  (λ p, p.1 - p.2) <$> zip v w.

(** With an integer scalar, on an integer vector. *)
Definition scalar_multiply (c : Z) (v : list Z) : list Z :=
  (λ v_i, c * v_i) <$> v.

(** On integer vectors: the sum is exact. *)
Definition dot (v w : list Z) : Z :=
  py_sum ((λ p, p.1 * p.2) <$> zip v w).

Definition sum_of_squares (v : list Z) : Z := dot v v.

Definition squared_distance (v w : list Z) : Z :=
  sum_of_squares (vector_subtract v w).

Definition shape (A : list (list Z)) : Z * Z :=
  let num_rows := len A in
  let num_cols := match A with
                  | A_0 :: _ => len A_0
                  | [] => 0
                  end in
  (num_rows, num_cols).

Definition get_row (A : list (list Z)) (i : Z) : res (list Z) :=
  index A i.

Definition get_column (A : list (list Z)) (j : Z) : res (list Z) :=
  comprehension (λ A_i, index A_i j) A.

Definition make_matrix (num_rows num_cols : Z) (entry_fn : Z → Z → res Z)
  : res (list (list Z)) :=
  comprehension
    (λ i, comprehension (λ j, entry_fn i j) (range num_cols))
    (range num_rows).

Definition is_diagonal (i j : Z) : Z :=
  if i =? j then 1 else 0.

Definition identity_matrix : res (list (list Z)) :=
  make_matrix 5 5 (λ i j, Val (is_diagonal i j)).

(** The [entry_fn] that [matrix_add] defines, with the matrices it
    closes over. *)
Definition matrix_add_entry_fn (A B : list (list Z)) (i j : Z) : res Z :=
  match entry A i j with
  | Err e => Err e
  | Val a =>
      match entry B i j with
      | Err e => Err e
      | Val b => Val (a + b)
      end
  end.

Definition matrix_add (A B : list (list Z)) : res (list (list Z)) :=
  if negb (bool_decide (shape A = shape B)) then Err ArithmeticError
  else
    let '(num_rows, num_cols) := shape A in
    make_matrix num_rows num_cols (matrix_add_entry_fn A B).

End LinAlg.

(** ** Displaying a notebook: [show_notebook] *)

Section Show.

(** [highlight(source, lexer, formatter)] of pygments: source text to
    markup. *)
Variable highlight : string → string.

(** The body of [for cell in nb.cells]: the two [html.append] calls. *)
Definition show_cell (html : list string) (c : cell) : list string :=
  let html := (html ++ ["<h4>" +:+ cell_type c +:+ " cell</h4>"])%list in
  if String.eqb (cell_type c) "code" then
    (html ++ [highlight (source c)])%list
  else (html ++ ["<pre>" +:+ source c +:+ "</pre>"])%list.

(** ['\n'.join(l)] *)
Fixpoint join_newline (l : list string) : string :=
  match l with
  | [] => ""
  | [s] => s
  | s :: l' => s +:+ String Mini.newline (join_newline l')
  end.

(** [show_notebook] returns nothing; the result here is the markup it
    hands to [display(HTML(...))]. *)
Definition show_notebook (fname : string) : M string :=
  nb ← open_read (Some fname);
  let html := foldl show_cell [] (cells nb) in
  ret (join_newline html).

End Show.

(** Every loader of the finder's cache sits under the key of its own
    search path. *)
Definition finder_keyed (st : state) (self : loc) : Prop :=
  ∃ ls, heap st !! self = Some (Finder ls) ∧
    ∀ k l, ls !! k = Some l →
      ∃ p, heap st !! l = Some (Loader p) ∧ hash_key (finder_key p) = Ok k.

(** * Properties *)

(** ** Strings *)

Lemma append_cons (c : ascii) (a b : string) :
  String c a +:+ b = String c (a +:+ b).
Proof. reflexivity. Qed.

Lemma append_assoc (a b c : string) : (a +:+ b) +:+ c = a +:+ (b +:+ c).
Proof. induction a as [|x a IH]; [done |]. rewrite !append_cons. by f_equal. Qed.

Lemma replace_underscore_app (a b : string) :
  Py.replace_underscore (a +:+ b)
  = Py.replace_underscore a +:+ Py.replace_underscore b.
Proof.
  induction a as [|x a IH]; [done |].
  rewrite append_cons. simpl. by rewrite IH.
Qed.

Lemma replace_underscore_id (s : string) :
  Py.has_underscore s = false → Py.replace_underscore s = s.
Proof.
  induction s as [|c s IH]; simpl; [done |].
  intros [Hc Hs]%orb_false_elim. rewrite Hc, IH; done.
Qed.

Lemma replace_startswith_sep (s : string) :
  Py.startswith_sep (Py.replace_underscore s) = Py.startswith_sep s.
Proof.
  destruct s as [|c s]; simpl; [done |].
  destruct (decide (c = "_"%char)) as [-> | Hc]; [done |].
  by rewrite (bool_decide_false (c = "_"%char)).
Qed.

Lemma replace_endswith_sep (s : string) :
  Py.endswith_sep (Py.replace_underscore s) = Py.endswith_sep s.
Proof.
  induction s as [|c s IH]; [done |].
  destruct s as [|c' s]; simpl in *.
  - destruct (decide (c = "_"%char)) as [-> | Hc]; [done |].
    by rewrite (bool_decide_false (c = "_"%char)).
  - exact IH.
Qed.

Lemma replace_str_truthy (s : string) :
  Py.str_truthy (Py.replace_underscore s) = Py.str_truthy s.
Proof. by destruct s. Qed.

(** Replacing underscores in a joined path replaces them in the
    directory part as well as in the file name. *)
Lemma replace_path_join (d b : string) :
  Py.replace_underscore (Py.path_join d b)
  = Py.path_join (Py.replace_underscore d) (Py.replace_underscore b).
Proof.
  unfold Py.path_join.
  rewrite replace_startswith_sep, replace_str_truthy, replace_endswith_sep.
  destruct (Py.startswith_sep b); [done |].
  destruct (negb (Py.str_truthy d) || Py.endswith_sep d);
    by rewrite !replace_underscore_app.
Qed.

Lemma path_join_empty (b : string) : Py.path_join "" b = b.
Proof. unfold Py.path_join. by destruct (Py.startswith_sep b). Qed.

Lemma str_truthy_app_r (a b : string) :
  Py.str_truthy b = true → Py.str_truthy (a +:+ b) = true.
Proof. by destruct a, b. Qed.

Lemma path_join_truthy (d b : string) :
  Py.str_truthy b = true → Py.str_truthy (Py.path_join d b) = true.
Proof.
  intros Hb. unfold Py.path_join.
  destruct (Py.startswith_sep b); [done |].
  destruct (negb (Py.str_truthy d) || Py.endswith_sep d).
  - by apply str_truthy_app_r.
  - apply str_truthy_app_r. by apply (str_truthy_app_r "/").
Qed.

Lemma after_last_dot_None (s : string) :
  Py.after_last_dot s = None → Py.has_dot s = false.
Proof.
  induction s as [|c s IH]; simpl; [done |].
  destruct (Py.after_last_dot s); [done |].
  case_bool_decide; [done |]. intros _. by rewrite IH.
Qed.

Lemma after_last_dot_Some (s t : string) :
  Py.after_last_dot s = Some t →
  Py.has_dot t = false ∧ ∃ pre, s = pre +:+ "." +:+ t.
Proof.
  revert t. induction s as [|c s IH]; simpl; [done |]. intros t.
  destruct (Py.after_last_dot s) as [u|] eqn:Hs.
  - intros [= ->]. destruct (IH t eq_refl) as [Hd [pre ->]].
    split; [done |]. by exists (String c pre).
  - case_bool_decide as Hc; [| done]. intros [= ->]. subst c.
    split; [by apply after_last_dot_None |]. by exists "".
Qed.

Lemma rsplit_last_spec (fullname : string) :
  is_last_segment fullname (Py.rsplit_last fullname).
Proof.
  unfold Py.rsplit_last, is_last_segment.
  destruct (Py.after_last_dot fullname) as [t|] eqn:H; simpl.
  - apply after_last_dot_Some in H as [Hd Hpre]. split; [done | by right].
  - split; [by apply after_last_dot_None | by left].
Qed.

(** ** The name resolver *)

Lemma primary_truthy (d name : string) : Py.str_truthy (primary d name) = true.
Proof. apply path_join_truthy. by apply str_truthy_app_r. Qed.

(** The fallback probe rewrites the directory as well as the file name. *)
Lemma fallback_join (d name : string) :
  fallback d name
  = Py.path_join (Py.replace_underscore d)
                 (Py.replace_underscore name +:+ ".ipynb").
Proof.
  unfold fallback, primary. by rewrite replace_path_join, replace_underscore_app.
Qed.

Lemma fallback_truthy (d name : string) :
  Py.str_truthy (fallback d name) = true.
Proof. rewrite fallback_join. apply path_join_truthy. by apply str_truthy_app_r. Qed.

Lemma search_dirs_given (d : string) (ds : list string) :
  search_dirs (Some (d :: ds)) = d :: ds.
Proof. reflexivity. Qed.

Lemma find_in_spec (isfile : string → bool) (name : string)
    (dirs : list string) :
  match find_in isfile name dirs with
  | Some p =>
      ∃ i d, dirs !! i = Some d ∧
        (∀ j d', j < i → dirs !! j = Some d' → no_match isfile name d') ∧
        (if isfile (primary d name) then p = primary d name
         else isfile (fallback d name) = true ∧ p = fallback d name)
  | None => ∀ d, d ∈ dirs → no_match isfile name d
  end.
Proof.
  induction dirs as [|d ds IH]; simpl.
  { intros d Hd. by apply elem_of_nil in Hd. }
  fold (primary d name). fold (fallback d name).
  destruct (isfile (primary d name)) eqn:H1.
  { exists 0, d. split; [done |]. split; [intros j d' Hj; lia |].
    by rewrite H1. }
  destruct (isfile (fallback d name)) eqn:H2.
  { exists 0, d. split; [done |]. split; [intros j d' Hj; lia |].
    by rewrite H1. }
  destruct (find_in isfile name ds) as [p|].
  - destruct IH as (i & d0 & Hi & Hbefore & Hp).
    exists (S i), d0. split; [done |]. split; [| done].
    intros [|j] d' Hj Hd'; simpl in Hd'.
    + injection Hd' as <-. by split.
    + apply (Hbefore j); [lia | done].
  - intros d' [-> | Hd']%elem_of_cons; [by split | by apply IH].
Qed.

Lemma find_notebook_truthy (isfile : string → bool) (fullname : string)
    (path : option (list string)) (f : string) :
  find_notebook isfile fullname path = Some f → Py.str_truthy f = true.
Proof.
  unfold find_notebook. intros H.
  pose proof (find_in_spec isfile (Py.rsplit_last fullname) (search_dirs path))
    as Hs.
  rewrite H in Hs. destruct Hs as (i & d & _ & _ & Hf).
  destruct (isfile (primary d (Py.rsplit_last fullname))).
  - subst f. apply primary_truthy.
  - destruct Hf as [_ ->]. apply fallback_truthy.
Qed.

(** What [find_notebook] computes: it takes the last dotted segment of
    the module name as the base name, goes through the directories in
    list order, and returns the probe of the first directory where one
    of the two probes is a file, the plain one being tried first; it
    returns [None] exactly when no directory has either. The second
    probe is [fallback]: the whole joined path with its underscores
    replaced, directory part included. A non-empty [path] is scanned as
    given. *)
Lemma find_notebook_first_match (isfile : string → bool)
    (fullname : string) (path : option (list string)) :
  let name := Py.rsplit_last fullname in
  let dirs := search_dirs path in
  is_last_segment fullname name ∧
  (∀ d ds, path = Some (d :: ds) → dirs = d :: ds) ∧
  match find_notebook isfile fullname path with
  | Some p =>
      ∃ i d, dirs !! i = Some d ∧
        (∀ j d', j < i → dirs !! j = Some d' → no_match isfile name d') ∧
        (if isfile (primary d name) then p = primary d name
         else isfile (fallback d name) = true ∧ p = fallback d name)
  | None => ∀ d, d ∈ dirs → no_match isfile name d
  end.
Proof.
  intros name dirs. split; [apply rsplit_last_spec |].
  split; [by intros d ds -> |].
  apply find_in_spec.
Qed.

(** C8: with an absent or empty search list [find_notebook] behaves as
    with the one-entry list [['']]: it probes [<base>.ipynb] and then its
    underscore-to-space variant, both relative to the current directory. *)
Theorem find_notebook_default_dir (isfile : string → bool)
    (fullname : string) :
  let name := Py.rsplit_last fullname in
  find_notebook isfile fullname None
    = find_notebook isfile fullname (Some [""]) ∧
  find_notebook isfile fullname (Some [])
    = find_notebook isfile fullname (Some [""]) ∧
  find_notebook isfile fullname (Some [""])
    = if isfile (name +:+ ".ipynb") then Some (name +:+ ".ipynb")
      else if isfile (Py.replace_underscore name +:+ ".ipynb")
           then Some (Py.replace_underscore name +:+ ".ipynb")
           else None.
Proof.
  intros name. split; [done |]. split; [done |].
  unfold find_notebook. simpl. fold name.
  rewrite path_join_empty, replace_underscore_app. done.
Qed.

(** C4: with the search list [["my_dir"; "other"]], where [my_dir]
    holds neither candidate and [other] holds [Foo_Bar.ipynb],
    [find_notebook] does not return the candidate of [other], the first
    directory with a match: it returns [my dir/Foo Bar.ipynb], a file of
    no directory of the list. And with the list [["my_dir"]], where
    [my_dir] holds [Foo Bar.ipynb], it reports not-found. *)
Theorem find_notebook_leaves_search_dirs :
  let files : gmap string file :=
    <["other/Foo_Bar.ipynb" := WellFormed Ex.nb_prose]> Ex.space_dir in
  files !! "my_dir/Foo_Bar.ipynb" = None ∧
  files !! "my_dir/Foo Bar.ipynb" = None ∧
  isfile_in files "other/Foo_Bar.ipynb" = true ∧
  find_notebook (isfile_in files) "Foo_Bar" (Some ["my_dir"; "other"])
    = Some "my dir/Foo Bar.ipynb" ∧
  isfile_in Ex.underscore_dir "my_dir/Foo Bar.ipynb" = true ∧
  find_notebook (isfile_in Ex.underscore_dir) "Foo_Bar" (Some ["my_dir"])
    = None.
Proof. vm_compute. repeat split; reflexivity. Qed.

(** C3: on a directory whose name has an underscore the fallback probe
    is not [Foo Bar.ipynb] in that directory: [find_notebook] misses the
    notebook that is there, and finds one under the directory name
    spelled with a space. *)
Theorem fallback_rewrites_directory :
  find_notebook (isfile_in Ex.underscore_dir) "Foo_Bar" (Some ["my_dir"])
    = None ∧
  find_notebook (isfile_in Ex.space_dir) "Foo_Bar" (Some ["my_dir"])
    = Some "my dir/Foo Bar.ipynb".
Proof. split; vm_compute; reflexivity. Qed.

(** ** The loader *)

Lemma initial_dict_built (fullname f : string) (self : loc) :
  <["get_ipython" := VGetIPython]>
    (<["__loader__" := VObj self]>
      (<["__file__" := VStr f]> (ModuleType_dict fullname)))
  = initial_dict fullname f self.
Proof. vm_compute. reflexivity. Qed.

Lemma fresh_loc_new (st : state) : fresh (dom (heap st)) ∉ dom (heap st).
Proof. apply is_fresh. Qed.

Lemma located_Some (st : state) (self : loc) (fullname f : string)
    (nb : notebook) :
  located st self fullname = Some (f, nb) →
  ∃ p, heap st !! self = Some (Loader p) ∧
       find_notebook (isfile_in (fs st)) fullname p = Some f ∧
       fs st !! f = Some (WellFormed nb).
Proof.
  unfold located. intros H.
  destruct (heap st !! self) as [[d | p | ls] |] eqn:Hs; try done.
  destruct (find_notebook _ _ _) as [f' |] eqn:Hn; [| done].
  destruct (fs st !! f') as [[nb' |] |] eqn:Hf; try done.
  injection H as -> ->. by exists p.
Qed.

Section LoaderFacts.

Variable transform_cell : string → result string.
Variable exec : string → loc → M unit.

(** The loop over the cells runs the sources of the code cells, in
    order, and nothing else. *)
Lemma run_cells_sources (m : loc) (cs : list cell) (st : state) :
  run_cells transform_cell exec m cs st
  = exec_sources transform_cell exec m (code_sources cs) st.
Proof.
  revert st. induction cs as [|c cs IH]; intros st; [done |].
  simpl. unfold code_sources. rewrite filter_cons.
  unfold mbind, M_bind, bind, run_cell.
  destruct (String.eqb_spec (cell_type c) "code") as [Hc | Hc].
  - rewrite decide_True by done. simpl.
    unfold mbind, M_bind, bind.
    destruct (lift (transform_cell (source c)) st) as [[code | e] st1];
      [| done].
    destruct (exec code m st1) as [[[] | e] st2]; [| done].
    apply IH.
  - rewrite decide_False by done. simpl. apply IH.
Qed.

(** Symbolic run of [load_module] once the document has been read. *)
Lemma load_module_read (self : loc) (fullname : string) (st : state)
    (f : string) (nb : notebook) :
  located st self fullname = Some (f, nb) →
  load_module transform_cell exec self fullname st
  = finish (fresh (dom (heap st))) (user_ns st)
      (exec_sources transform_cell exec (fresh (dom (heap st)))
         (code_sources (cells nb)) (module_ready self fullname f st)).
Proof.
  intros (p & Hself & Hfind & Hfile)%located_Some.
  unfold load_module, mbind, M_bind, bind, loader_path, find_notebook_now,
    print, open_read, ModuleType, alloc, setitem, register, get_user_ns,
    put_user_ns, try_finally, ret.
  rewrite Hself, Hfind. simpl. rewrite Hfile. simpl.
  rewrite !lookup_insert_eq. simpl.
  rewrite !lookup_insert_eq. simpl.
  rewrite !lookup_insert_eq, !insert_insert_eq, initial_dict_built.
  unfold set_heap, set_user_ns, set_sys_modules, set_stdout. simpl.
  rewrite run_cells_sources. unfold finish, module_ready.
  by destruct (exec_sources _ _ _ _ _) as [[[] | e] st1].
Qed.

(** When no document can be read the import fails before the registry,
    the shell and the heap are touched. *)
Lemma load_module_unread (self : loc) (fullname : string) (st : state) :
  located st self fullname = None →
  ∃ e st', load_module transform_cell exec self fullname st = (Raise e, st') ∧
    sys_modules st' = sys_modules st ∧ user_ns st' = user_ns st ∧
    heap st' = heap st.
Proof.
  unfold located. intros H.
  unfold load_module, mbind, M_bind, bind, loader_path, find_notebook_now,
    print, open_read.
  destruct (heap st !! self) as [[d | p | ls] |]; try by eexists _, _.
  destruct (find_notebook _ _ _) as [f |]; simpl; [| by eexists _, _].
  destruct (fs st !! f) as [[nb |] |]; try done; by eexists _, _.
Qed.

Lemma exec_sources_registry (m : loc) (srcs : list string) (st : state)
    (n : string) (l : loc) :
  keeps_registry exec →
  sys_modules st !! n = Some l →
  sys_modules (exec_sources transform_cell exec m srcs st).2 !! n = Some l.
Proof.
  intros Hk. revert st. induction srcs as [|s srcs IH]; intros st Hn; [done |].
  simpl. unfold mbind, M_bind, bind, lift.
  destruct (transform_cell s) as [code | e]; [| done].
  specialize (Hk code m st n l Hn).
  destruct (exec code m st) as [[[] | e] st1]; simpl in *; [| done].
  by apply IH.
Qed.

Lemma exec_sources_objects (m : loc) (srcs : list string) (st : state) :
  keeps_objects exec →
  dom (heap st) ⊆ dom (heap (exec_sources transform_cell exec m srcs st).2).
Proof.
  intros Hk. revert st. induction srcs as [|s srcs IH]; intros st; [done |].
  simpl. unfold mbind, M_bind, bind, lift.
  destruct (transform_cell s) as [code | e]; [| done].
  specialize (Hk code m st).
  destruct (exec code m st) as [[[] | e] st1]; simpl in *; [| done].
  etrans; [exact Hk | apply IH].
Qed.

End LoaderFacts.

(** ** The concrete host *)

Lemma set_heap_same (st : state) : set_heap (heap st) st = st.
Proof. by destruct st. Qed.

Lemma mini_exec_keeps_registry : keeps_registry Mini.exec.
Proof.
  intros code g st n l Hn. unfold Mini.exec.
  destruct (heap st !! g) as [[d | p | ls] |]; try done.
  destruct (Mini.compile code) as [prog |]; [| done].
  by destruct (Mini.run _ prog).
Qed.

Lemma mini_exec_keeps_objects : keeps_objects Mini.exec.
Proof.
  intros code g st. unfold Mini.exec.
  destruct (heap st !! g) as [[d | p | ls] |]; try done.
  destruct (Mini.compile code) as [prog |];
    [destruct (Mini.run _ prog) |]; simpl; rewrite dom_insert_L; set_solver.
Qed.

(** On a module the concrete host acts on its dictionary only. *)
Lemma mini_exec_sources (m : loc) (srcs : list string) (st : state)
    (d : gmap string value) :
  heap st !! m = Some (Module d) →
  exec_sources Mini.transform_cell Mini.exec m srcs st
  = ((mini_cells d srcs).1,
     set_heap (<[m := Module (mini_cells d srcs).2]> (heap st)) st).
Proof.
  revert st d. induction srcs as [|s srcs IH]; intros st d Hd.
  { simpl. unfold ret. by rewrite insert_id, set_heap_same. }
  simpl. unfold mbind, M_bind, bind, lift, mini_cell, Mini.transform_cell.
  unfold Mini.exec. rewrite Hd.
  destruct (Mini.compile _) as [prog |]; [| done].
  destruct (Mini.run _ prog) as [[[] | e] d']; [| done].
  rewrite (IH _ d') by apply lookup_insert_eq.
  simpl. unfold set_heap. simpl. by rewrite insert_insert_eq.
Qed.

(** ** Claims about the loader *)

(** C9: whatever the outcome of [load_module] and whatever the fragments
    do, the shell's user namespace after the call is the one it was
    before the call. *)
Theorem load_module_restores_user_ns (transform_cell : string → result string)
    (exec : string → loc → M unit) (self : loc) (fullname : string)
    (st : state) :
  user_ns (load_module transform_cell exec self fullname st).2 = user_ns st.
Proof.
  destruct (located st self fullname) as [[f nb] |] eqn:Hl.
  - by rewrite (load_module_read _ _ _ _ _ _ _ Hl).
  - destruct (load_module_unread transform_cell exec _ _ _ Hl)
      as (e & st' & -> & _ & Hu & _).
    exact Hu.
Qed.

(** C1, as stated, fails: the import of a notebook whose second fragment
    raises ends with the exception and with the name registered, bound
    to the module that holds the first fragment's binding. *)
Lemma failed_import_stays_registered :
  let out :=
    load_module Mini.transform_cell Mini.exec Ex.loader "fails" Ex.st0 in
  sys_modules Ex.st0 !! "fails" = None ∧
  out.1 = Raise (NameError "z") ∧
  sys_modules out.2 !! "fails" = Some 4%positive ∧
  dict_of out.2 4%positive !! "x" = Some (VInt 1) ∧
  dict_of out.2 4%positive !! "w" = None.
Proof. vm_compute. repeat split; reflexivity. Qed.

(** C1, amended: once the document has been read, [load_module] binds the
    requested name to the new module before any fragment runs: the
    fragments start from the state [module_ready], in which the name is
    already registered, whatever [exec] does. It never unbinds the name,
    so the name is registered after the call whether the fragments
    succeed or one of them raises (the fragments being assumed to leave
    registry entries alone), and the other entries are kept; the
    registry is untouched only when no document could be read. *)
Theorem load_module_registers_before_exec
    (transform_cell : string → result string)
    (exec : string → loc → M unit) (self : loc) (fullname : string)
    (st : state) :
  keeps_registry exec →
  let out := load_module transform_cell exec self fullname st in
  let m := fresh (dom (heap st)) in
  match located st self fullname with
  | Some (f, nb) =>
      (m ∉ dom (heap st)) ∧
      sys_modules out.2 !! fullname = Some m ∧
      (∀ n l, n ≠ fullname → sys_modules st !! n = Some l →
              sys_modules out.2 !! n = Some l) ∧
      out = finish m (user_ns st)
              (exec_sources transform_cell exec m (code_sources (cells nb))
                 (module_ready self fullname f st)) ∧
      sys_modules (module_ready self fullname f st) !! fullname = Some m ∧
      heap (module_ready self fullname f st) !! m
        = Some (Module (initial_dict fullname f self))
  | None => (∃ e, out.1 = Raise e) ∧ sys_modules out.2 = sys_modules st
  end.
Proof.
  intros Hk out m. subst out m.
  destruct (located st self fullname) as [[f nb] |] eqn:Hl.
  - rewrite (load_module_read _ _ _ _ _ _ _ Hl). simpl.
    split; [apply fresh_loc_new |]. split.
    { apply exec_sources_registry; [done |]. apply lookup_insert_eq. }
    split.
    { intros n l Hn Hreg. apply exec_sources_registry; [done |].
      simpl. by rewrite lookup_insert_ne. }
    split; [done |]. split; apply lookup_insert_eq.
  - destruct (load_module_unread transform_cell exec _ _ _ Hl)
      as (e & st' & -> & Hreg & _ & _).
    split; [by exists e | done].
Qed.

Lemma load_module_registers_before_exec_witness :
  let out :=
    load_module Mini.transform_cell Mini.exec Ex.loader "fails" Ex.st0 in
  sys_modules out.2 !! "fails" = Some (fresh (dom (heap Ex.st0))).
Proof.
  exact (proj1 (proj2
    (load_module_registers_before_exec Mini.transform_cell Mini.exec
       Ex.loader "fails" Ex.st0 mini_exec_keeps_registry))).
Defined.

Lemma module_ready_dict (self : loc) (fullname f : string) (st : state) :
  dict_of (module_ready self fullname f st) (fresh (dom (heap st)))
  = initial_dict fullname f self.
Proof. unfold dict_of, module_ready. simpl. by rewrite lookup_insert_eq. Qed.

(** C2, as stated, fails: a first fragment that reads [__file__] finds it
    bound, and a notebook without any executable fragment yields a
    namespace that is not empty. *)
Lemma namespace_bound_before_first_fragment :
  let reads :=
    load_module Mini.transform_cell Mini.exec Ex.loader "reads" Ex.st0 in
  let prose :=
    load_module Mini.transform_cell Mini.exec Ex.loader "prose" Ex.st0 in
  reads.1 = Ok 4%positive ∧
  dict_of reads.2 4%positive !! "y" = Some (VStr "reads.ipynb") ∧
  code_sources (cells Ex.nb_prose) = [] ∧
  prose.1 = Ok 4%positive ∧
  dict_of prose.2 4%positive !! "__file__" = Some (VStr "prose.ipynb").
Proof. vm_compute. repeat split; reflexivity. Qed.

(** C2, amended: [load_module] creates a new module whose namespace,
    when the first fragment starts, holds exactly the attributes
    [__name__], [__doc__], [__package__], [__spec__], [__loader__],
    [__file__] and [get_ipython]; the fragments run against it, so every
    other binding comes from them, and a notebook without executable
    fragments yields exactly that namespace. *)
Theorem load_module_initial_namespace
    (transform_cell : string → result string)
    (exec : string → loc → M unit) (self : loc) (fullname : string)
    (st : state) (f : string) (nb : notebook) :
  located st self fullname = Some (f, nb) →
  let m := fresh (dom (heap st)) in
  let st0 := module_ready self fullname f st in
  let out := load_module transform_cell exec self fullname st in
  (m ∉ dom (heap st)) ∧
  dict_of st0 m = initial_dict fullname f self ∧
  dom (initial_dict fullname f self)
    = list_to_set ["__name__"; "__doc__"; "__package__"; "__spec__";
                   "__loader__"; "__file__"; "get_ipython"] ∧
  initial_dict fullname f self !! "__name__" = Some (VStr fullname) ∧
  initial_dict fullname f self !! "__file__" = Some (VStr f) ∧
  initial_dict fullname f self !! "__loader__" = Some (VObj self) ∧
  out = finish m (user_ns st)
          (exec_sources transform_cell exec m (code_sources (cells nb)) st0) ∧
  (code_sources (cells nb) = [] →
   out.1 = Ok m ∧ dict_of out.2 m = initial_dict fullname f self).
Proof.
  intros Hl m st0 out. subst m st0 out.
  rewrite (load_module_read _ _ _ _ _ _ _ Hl).
  split; [apply fresh_loc_new |].
  split; [apply module_ready_dict |].
  split.
  { unfold initial_dict. rewrite dom_list_to_map_L. done. }
  do 3 (split; [done |]).
  split; [done |].
  intros ->. simpl. split; [done |].
  unfold dict_of. simpl. by rewrite lookup_insert_eq.
Qed.

Lemma load_module_initial_namespace_witness :
  let out :=
    load_module Mini.transform_cell Mini.exec Ex.loader "prose" Ex.st0 in
  dict_of out.2 (fresh (dom (heap Ex.st0)))
  = initial_dict "prose" "prose.ipynb" Ex.loader.
Proof.
  refine (proj2 (proj2 (proj2 (proj2 (proj2 (proj2 (proj2 (proj2
    (load_module_initial_namespace Mini.transform_cell Mini.exec
       Ex.loader "prose" Ex.st0 "prose.ipynb" Ex.nb_prose _))))))) _));
    vm_compute; reflexivity.
Defined.

(** C5: [load_module] runs the sources of the cells tagged ['code'], and
    only those, in document order, all against the one new module, each
    fragment starting from the state the previous one left; with the two
    fragments [x = 1] and [y = x + 1] the import succeeds and the
    namespace binds [y] to 2. *)
Theorem load_module_runs_code_cells_in_order
    (transform_cell : string → result string)
    (exec : string → loc → M unit) (self : loc) (fullname : string)
    (st : state) (f : string) (nb : notebook) :
  located st self fullname = Some (f, nb) →
  let m := fresh (dom (heap st)) in
  load_module transform_cell exec self fullname st
  = finish m (user_ns st)
      (exec_sources transform_cell exec m
         (source <$> filter (λ c, cell_type c = "code") (cells nb))
         (module_ready self fullname f st)) ∧
  (cells nb = [Cell "code" "x = 1"; Cell "code" "y = x + 1"] →
   let out := load_module Mini.transform_cell Mini.exec self fullname st in
   out.1 = Ok m ∧
   dict_of out.2 m !! "x" = Some (VInt 1) ∧
   dict_of out.2 m !! "y" = Some (VInt 2)).
Proof.
  intros Hl m. subst m. split; [by apply load_module_read |].
  intros Hcells out. subst out.
  rewrite (load_module_read _ _ _ _ _ _ _ Hl), Hcells.
  rewrite (mini_exec_sources _ _ _ (initial_dict fullname f self))
    by apply lookup_insert_eq.
  unfold finish, dict_of. simpl. rewrite lookup_insert_eq.
  vm_compute. done.
Qed.

Lemma load_module_runs_code_cells_in_order_witness :
  let out :=
    load_module Mini.transform_cell Mini.exec Ex.loader "pkg.xy" Ex.st0 in
  out = finish 4%positive Ex.main
          (exec_sources Mini.transform_cell Mini.exec 4%positive
             ["x = 1"; "y = x + 1"]
             (module_ready Ex.loader "pkg.xy" "xy.ipynb" Ex.st0)).
Proof.
  refine (proj1
    (load_module_runs_code_cells_in_order Mini.transform_cell Mini.exec
       Ex.loader "pkg.xy" Ex.st0 "xy.ipynb" Ex.nb_xy _)).
  vm_compute; reflexivity.
Defined.

Lemma load_module_Ok (transform_cell : string → result string)
    (exec : string → loc → M unit) (self : loc) (fullname : string)
    (st st' : state) (m : loc) :
  load_module transform_cell exec self fullname st = (Ok m, st') →
  ∃ f nb, located st self fullname = Some (f, nb) ∧
    m = fresh (dom (heap st)) ∧
    heap st'
    = heap (exec_sources transform_cell exec m (code_sources (cells nb))
              (module_ready self fullname f st)).2.
Proof.
  intros H. destruct (located st self fullname) as [[f nb] |] eqn:Hl.
  - exists f, nb. split; [done |].
    rewrite (load_module_read _ _ _ _ _ _ _ Hl) in H. unfold finish in H.
    injection H as Hm <-.
    destruct (exec_sources _ _ _ _ _).1 as [[] | e] eqn:Hr; [| done].
    injection Hm as <-. done.
  - destruct (load_module_unread transform_cell exec _ _ _ Hl)
      as (e & st'' & He & _).
    congruence.
Qed.

(** C7: two successful imports of the same name give two distinct
    module objects, each new when it is created, and the second import
    runs the fragments of the document that the file holds at that
    time, whatever was read before. *)
Theorem load_module_fresh_each_time
    (transform_cell : string → result string)
    (exec : string → loc → M unit) (self : loc) (fullname : string)
    (st st1 st1' st2 : state) (m1 m2 : loc) :
  keeps_objects exec →
  load_module transform_cell exec self fullname st = (Ok m1, st1) →
  dom (heap st1) ⊆ dom (heap st1') →
  load_module transform_cell exec self fullname st1' = (Ok m2, st2) →
  m1 ≠ m2 ∧ (m1 ∉ dom (heap st)) ∧ (m2 ∉ dom (heap st1')) ∧
  ∃ f nb, located st1' self fullname = Some (f, nb) ∧
    (Ok m2, st2)
    = finish m2 (user_ns st1')
        (exec_sources transform_cell exec m2 (code_sources (cells nb))
           (module_ready self fullname f st1')).
Proof.
  intros Hk H1 Hsub H2.
  destruct (load_module_Ok _ _ _ _ _ _ _ H1) as (f1 & nb1 & Hl1 & -> & Hh1).
  destruct (load_module_Ok _ _ _ _ _ _ _ H2) as (f2 & nb2 & Hl2 & -> & Hh2).
  assert (fresh (dom (heap st)) ∈ dom (heap st1)) as Hin.
  { rewrite Hh1.
    eapply (exec_sources_objects transform_cell exec); [done |].
    unfold module_ready. simpl. rewrite dom_insert_L. set_solver. }
  split.
  { intros Heq. apply (fresh_loc_new st1'). rewrite <- Heq. by apply Hsub. }
  split; [apply fresh_loc_new |]. split; [apply fresh_loc_new |].
  exists f2, nb2. split; [done |].
  by rewrite <- H2, (load_module_read _ _ _ _ _ _ _ Hl2).
Qed.

Lemma load_module_fresh_each_time_witness :
  let out1 :=
    load_module Mini.transform_cell Mini.exec Ex.loader "xy" Ex.st0 in
  let out2 :=
    load_module Mini.transform_cell Mini.exec Ex.loader "xy" out1.2 in
  out1.1 = Ok 4%positive ∧ out2.1 = Ok 5%positive ∧ 4%positive ≠ 5%positive.
Proof.
  split; [vm_compute; reflexivity |]. split; [vm_compute; reflexivity |].
  refine (proj1
    (load_module_fresh_each_time Mini.transform_cell Mini.exec Ex.loader "xy"
       Ex.st0
       (load_module Mini.transform_cell Mini.exec Ex.loader "xy" Ex.st0).2
       (load_module Mini.transform_cell Mini.exec Ex.loader "xy" Ex.st0).2
       (load_module Mini.transform_cell Mini.exec Ex.loader "xy"
          (load_module Mini.transform_cell Mini.exec Ex.loader "xy"
             Ex.st0).2).2
       4%positive 5%positive mini_exec_keeps_objects _ _ _)).
  - vm_compute; reflexivity.
  - reflexivity.
  - vm_compute; reflexivity.
Defined.

(** ** The finder *)

Lemma hash_key_inj (a b : pykey) (k k' : option string) :
  hash_key a = Ok k → hash_key b = Ok k' → (k = k' ↔ a = b).
Proof.
  destruct a, b; simpl; intros [= <-] [= <-]; split; congruence.
Qed.

Lemma find_module_found (self : loc) (fullname : string)
    (path : option (list string)) (st : state)
    (ls : gmap (option string) loc) (f : string) :
  heap st !! self = Some (Finder ls) →
  find_notebook (isfile_in (fs st)) fullname path = Some f →
  find_module self fullname path st
  = match hash_key (finder_key path) with
    | Raise e => (Raise e, st)
    | Ok k =>
        match ls !! k with
        | Some l => (Ok (Some l), st)
        | None =>
            let l := fresh (dom (heap st)) in
            (Ok (Some l),
             set_heap (<[self := Finder (<[k := l]> ls)]>
                         (<[l := Loader path]> (heap st))) st)
        end
    end.
Proof.
  intros Hself Hfind.
  assert (fresh (dom (heap st)) ≠ self) as Hne.
  { intros Heq. apply (fresh_loc_new st). rewrite Heq.
    apply elem_of_dom. by eexists. }
  unfold find_module, mbind, M_bind, bind, find_notebook_now, finder_loaders,
    lift, NotebookLoader, alloc, set_loader, ret, raise.
  rewrite Hfind. simpl. rewrite (find_notebook_truthy _ _ _ _ Hfind). simpl.
  rewrite Hself.
  destruct (hash_key (finder_key path)) as [k | e]; [| done].
  destruct (ls !! k) as [l |] eqn:Hk; simpl.
  - by rewrite Hself, Hk.
  - rewrite lookup_insert_ne by done. rewrite Hself. simpl.
    by rewrite !lookup_insert_eq.
Qed.

Lemma find_module_not_found (self : loc) (fullname : string)
    (path : option (list string)) (st : state) :
  find_notebook (isfile_in (fs st)) fullname path = None →
  find_module self fullname path st = (Ok None, st).
Proof.
  intros Hfind. unfold find_module, mbind, M_bind, bind, find_notebook_now.
  by rewrite Hfind.
Qed.

(** A call that returns a loader either hits the cache or adds a new
    loader under the key of the path. *)
Lemma find_module_returns (self : loc) (fullname : string)
    (path : option (list string)) (st st' : state)
    (ls : gmap (option string) loc) (l : loc) :
  heap st !! self = Some (Finder ls) →
  find_module self fullname path st = (Ok (Some l), st') →
  ∃ k, hash_key (finder_key path) = Ok k ∧
    ((ls !! k = Some l ∧ st' = st) ∨
     (ls !! k = None ∧ l = fresh (dom (heap st)) ∧
      st' = set_heap (<[self := Finder (<[k := l]> ls)]>
                        (<[l := Loader path]> (heap st))) st)).
Proof.
  intros Hself H.
  destruct (find_notebook (isfile_in (fs st)) fullname path) as [f |] eqn:Hf.
  - rewrite (find_module_found _ _ _ _ _ _ Hself Hf) in H.
    destruct (hash_key (finder_key path)) as [k | e]; [| done].
    exists k. split; [done |].
    destruct (ls !! k) as [l' |] eqn:Hk.
    + left. by injection H as -> ->.
    + right. by injection H as <- <-.
  - by rewrite (find_module_not_found _ _ _ _ Hf) in H.
Qed.

Lemma NotebookFinder_wf (st st' : state) (self : loc) :
  NotebookFinder st = (Ok self, st') → finder_wf st' self.
Proof.
  unfold NotebookFinder, alloc. intros [= <- <-]. exists ∅. simpl.
  split; [apply lookup_insert_eq |]. split; intros *; by rewrite lookup_empty.
Qed.

Lemma find_module_wf (self : loc) (fullname : string)
    (path : option (list string)) (st st' : state) (l : loc) :
  finder_wf st self →
  find_module self fullname path st = (Ok (Some l), st') →
  ∃ k ls', hash_key (finder_key path) = Ok k ∧
    heap st' !! self = Some (Finder ls') ∧ ls' !! k = Some l ∧
    finder_wf st' self.
Proof.
  intros (ls & Hself & Hdom & Hinj) H.
  destruct (find_module_returns _ _ _ _ _ _ _ Hself H)
    as (k & Hk & [[Hhit ->] | (Hmiss & Hl & ->)]).
  { exists k, ls. repeat split; try done. by exists ls. }
  assert (l ∉ dom (heap st)) as Hnew by (subst l; apply fresh_loc_new).
  assert (l ≠ self) as Hne.
  { intros ->. apply Hnew, elem_of_dom. by eexists. }
  exists k, (<[k := l]> ls). split; [done |]. simpl.
  split; [apply lookup_insert_eq |]. split; [apply lookup_insert_eq |].
  exists (<[k := l]> ls). simpl. split; [apply lookup_insert_eq |]. split.
  - intros k' l' Hl'. rewrite !dom_insert_L.
    destruct (decide (k = k')) as [<- | Hkk].
    + rewrite lookup_insert_eq in Hl'. injection Hl' as <-.
      split; [done |].
      by apply elem_of_union_r, elem_of_union_l, elem_of_singleton.
    + rewrite lookup_insert_ne in Hl' by done.
      pose proof (Hdom _ _ Hl') as [? ?]. split; [done |].
      by do 2 apply elem_of_union_r.
  - intros k1 k2 l' H1 H2.
    destruct (decide (k = k1)) as [<- | Hk1], (decide (k = k2)) as [<- | Hk2];
      [done | | |].
    + rewrite lookup_insert_eq in H1. injection H1 as <-.
      rewrite lookup_insert_ne in H2 by done.
      by pose proof (Hdom _ _ H2) as [_ ?].
    + rewrite lookup_insert_eq in H2. injection H2 as <-.
      rewrite lookup_insert_ne in H1 by done.
      by pose proof (Hdom _ _ H1) as [_ ?].
    + rewrite lookup_insert_ne in H1, H2 by done. by eapply Hinj.
Qed.

(** The search paths [["a/b"]] and [["a"; "b"]] differ, both calls
    locate a notebook, and both return the same loader, the one created
    for [["a/b"]]. *)
Lemma joined_key_collision :
  let out1 := find_module Ex.finder "m" (Some ["a/b"]) Ex.st0 in
  let out2 := find_module Ex.finder "m" (Some ["a"; "b"]) out1.2 in
  find_notebook (isfile_in Ex.files) "m" (Some ["a/b"]) = Some "a/b/m.ipynb" ∧
  find_notebook (isfile_in Ex.files) "m" (Some ["a"; "b"]) = Some "a/m.ipynb" ∧
  out1.1 = Ok (Some 4%positive) ∧
  out2.1 = Ok (Some 4%positive) ∧
  heap out2.2 !! 4%positive = Some (Loader (Some ["a/b"])) ∧
  Some ["a/b"] ≠ Some ["a"; "b"].
Proof. vm_compute. repeat split; try reflexivity. discriminate. Qed.

(** Two consecutive calls that return a loader return the same object
    exactly when the cache keys of their paths are equal, the key being
    [None] for an absent path and the ['/']-joined directory list for a
    non-empty one; the cache stays well formed. *)
Lemma find_module_one_loader_per_key (self : loc) (n1 n2 : string)
    (p1 p2 : option (list string)) (st st1 st2 : state) (l1 l2 : loc) :
  finder_wf st self →
  find_module self n1 p1 st = (Ok (Some l1), st1) →
  find_module self n2 p2 st1 = (Ok (Some l2), st2) →
  (l1 = l2 ↔ finder_key p1 = finder_key p2) ∧
  (p1 = p2 → l1 = l2) ∧
  finder_wf st2 self.
Proof.
  intros Hwf H1 H2.
  destruct (find_module_wf _ _ _ _ _ _ Hwf H1)
    as (k1 & ls1 & Hk1 & Hself1 & Hl1 & Hwf1).
  destruct (find_module_wf _ _ _ _ _ _ Hwf1 H2)
    as (k2 & ls2 & Hk2 & _ & _ & Hwf2).
  assert (l1 = l2 ↔ k1 = k2) as Hiff.
  { destruct Hwf1 as (ls & Hself & Hdom & Hinj).
    rewrite Hself1 in Hself. injection Hself as <-.
    destruct (find_module_returns _ _ _ _ _ _ _ Hself1 H2)
      as (k & Hk & [[Hhit _] | (Hmiss & Hl & _)]);
      rewrite Hk2 in Hk; injection Hk as <-.
    - split; [intros <-; by eapply Hinj | intros <-; congruence].
    - pose proof (Hdom _ _ Hl1) as [_ Hin].
      split; [| intros <-; congruence].
      intros <-. exfalso. apply (fresh_loc_new st1). by rewrite <- Hl. }
  assert (l1 = l2 ↔ finder_key p1 = finder_key p2) as Hkeys.
  { rewrite Hiff. by apply hash_key_inj. }
  split; [done |]. split; [| done].
  intros ->. by apply Hkeys.
Qed.

Lemma find_module_one_loader_per_key_witness :
  let start := NotebookFinder Ex.st0 in
  let out1 := find_module 4%positive "m" (Some ["a/b"]) start.2 in
  let out2 := find_module 4%positive "xy" None out1.2 in
  start.1 = Ok 4%positive ∧
  out1.1 = Ok (Some 5%positive) ∧ out2.1 = Ok (Some 6%positive) ∧
  (5%positive = 6%positive ↔ finder_key (Some ["a/b"]) = finder_key None).
Proof.
  split; [vm_compute; reflexivity |]. split; [vm_compute; reflexivity |].
  split; [vm_compute; reflexivity |].
  refine (proj1
    (find_module_one_loader_per_key 4%positive "m" "xy" (Some ["a/b"]) None
       (NotebookFinder Ex.st0).2
       (find_module 4%positive "m" (Some ["a/b"]) (NotebookFinder Ex.st0).2).2
       (find_module 4%positive "xy" None
          (find_module 4%positive "m" (Some ["a/b"])
             (NotebookFinder Ex.st0).2).2).2
       5%positive 6%positive _ _ _)).
  - apply (NotebookFinder_wf Ex.st0). vm_compute; reflexivity.
  - vm_compute; reflexivity.
  - vm_compute; reflexivity.
Defined.

(** C6: the finder does not keep one loader per search path. After a
    call with the path [["a/b"]], a call with the different path
    [["a"; "b"]] finds [a/m.ipynb] and returns the loader made for
    [["a/b"]], the two lists having the same joined key; that loader
    resolves the name to [a/b/m.ipynb], another notebook than the one
    the finder found. *)
Theorem joined_key_loads_other_notebook :
  let out1 := find_module Ex.finder "m" (Some ["a/b"]) Ex.st0 in
  let out2 := find_module Ex.finder "m" (Some ["a"; "b"]) out1.2 in
  Some ["a/b"] ≠ Some ["a"; "b"] ∧
  finder_key (Some ["a/b"]) = finder_key (Some ["a"; "b"]) ∧
  out1.1 = Ok (Some 4%positive) ∧
  out2.1 = Ok (Some 4%positive) ∧
  heap out2.2 !! 4%positive = Some (Loader (Some ["a/b"])) ∧
  find_notebook (isfile_in (fs out1.2)) "m" (Some ["a"; "b"])
    = Some "a/m.ipynb" ∧
  located out2.2 4%positive "m" = Some ("a/b/m.ipynb", Ex.nb_prose) ∧
  fs out2.2 !! "a/m.ipynb" = Some (WellFormed Ex.nb_xy).
Proof. vm_compute. repeat split; try reflexivity. discriminate. Qed.

(** C10: when [find_notebook] finds a notebook for the empty search
    list, [find_module] called with that empty list raises [TypeError],
    the list itself being used as the cache key; no loader is returned
    and the state is unchanged. *)
Theorem find_module_empty_path_raises (self : loc) (fullname : string)
    (st : state) (ls : gmap (option string) loc) (f : string) :
  heap st !! self = Some (Finder ls) →
  find_notebook (isfile_in (fs st)) fullname (Some []) = Some f →
  find_notebook (isfile_in (fs st)) fullname (Some [""]) = Some f ∧
  find_module self fullname (Some []) st = (Raise TypeError, st).
Proof.
  intros Hself Hfind. split; [exact Hfind |].
  by rewrite (find_module_found _ _ _ _ _ _ Hself Hfind).
Qed.

Lemma find_module_empty_path_raises_witness :
  find_notebook (isfile_in (fs Ex.st0)) "xy" (Some []) = Some "xy.ipynb" ∧
  find_module Ex.finder "xy" (Some []) Ex.st0 = (Raise TypeError, Ex.st0).
Proof.
  split; [vm_compute; reflexivity |].
  refine (proj2
    (find_module_empty_path_raises Ex.finder "xy" Ex.st0 ∅ "xy.ipynb" _ _));
    vm_compute; reflexivity.
Defined.

(** * More on the import hook *)

(** ** The resolver *)

Lemma path_join_suffix (d b : string) : ∃ pre, Py.path_join d b = pre +:+ b.
Proof.
  unfold Py.path_join. destruct (Py.startswith_sep b); [by exists "" |].
  destruct (negb (Py.str_truthy d) || Py.endswith_sep d); [by exists d |].
  exists (d +:+ "/"). by rewrite append_assoc.
Qed.

Lemma primary_suffix (d name : string) :
  ∃ stem, primary d name = stem +:+ ".ipynb".
Proof.
  destruct (path_join_suffix d (name +:+ ".ipynb")) as [pre Hpre].
  exists (pre +:+ name). unfold primary. by rewrite Hpre, append_assoc.
Qed.

Lemma fallback_suffix (d name : string) :
  ∃ stem, fallback d name = stem +:+ ".ipynb".
Proof.
  rewrite fallback_join.
  destruct (path_join_suffix (Py.replace_underscore d)
              (Py.replace_underscore name +:+ ".ipynb")) as [pre Hpre].
  exists (pre +:+ Py.replace_underscore name). by rewrite Hpre, append_assoc.
Qed.

(** X1: a path returned by [find_notebook] names an existing file and
    ends with [.ipynb]. *)
Theorem find_notebook_sound (isfile : string → bool) (fullname : string)
    (path : option (list string)) :
  match find_notebook isfile fullname path with
  | Some f => isfile f = true ∧ ∃ stem, f = stem +:+ ".ipynb"
  | None => True
  end.
Proof.
  pose proof (find_in_spec isfile (Py.rsplit_last fullname) (search_dirs path))
    as Hs.
  unfold find_notebook.
  destruct (find_in _ _ _) as [f |]; [| done].
  destruct Hs as (i & d & _ & _ & Hf).
  destruct (isfile (primary d (Py.rsplit_last fullname))) eqn:Hp.
  - subst f. split; [done | apply primary_suffix].
  - destruct Hf as [Hfb ->]. split; [done | apply fallback_suffix].
Qed.

Lemma after_last_dot_no_dot (s : string) :
  Py.has_dot s = false → Py.after_last_dot s = None.
Proof.
  induction s as [|c s IH]; simpl; [done |].
  intros [Hc Hs]%orb_false_elim. by rewrite IH, Hc.
Qed.

Lemma after_last_dot_package (pkg name : string) :
  Py.has_dot name = false →
  Py.after_last_dot (pkg +:+ "." +:+ name) = Some name.
Proof.
  intros Hn. induction pkg as [|c pkg IH].
  - change ("" +:+ "." +:+ name) with (String "."%char name). simpl.
    by rewrite after_last_dot_no_dot.
  - rewrite append_cons. simpl. by rewrite IH.
Qed.

(** X2: only the last dotted segment of the module name is used: the
    package part contributes no directory, so [pkg.name] resolves as
    [name] does. *)
Theorem find_notebook_ignores_package (isfile : string → bool)
    (pkg name : string) (path : option (list string)) :
  Py.has_dot name = false →
  find_notebook isfile (pkg +:+ "." +:+ name) path
  = find_notebook isfile name path.
Proof.
  intros Hn. unfold find_notebook, Py.rsplit_last.
  by rewrite after_last_dot_package, after_last_dot_no_dot.
Qed.

Lemma find_notebook_ignores_package_witness :
  find_notebook (isfile_in Ex.files) ("foo.bar" +:+ "." +:+ "xy") None
  = find_notebook (isfile_in Ex.files) "xy" None.
Proof. apply find_notebook_ignores_package. reflexivity. Defined.

Lemma find_in_app (isfile : string → bool) (name : string)
    (ds1 ds2 : list string) :
  find_in isfile name (ds1 ++ ds2)%list
  = match find_in isfile name ds1 with
    | Some f => Some f
    | None => find_in isfile name ds2
    end.
Proof.
  induction ds1 as [|d ds1 IH]; [done |]. simpl.
  destruct (isfile _); [done |]. by destruct (isfile _).
Qed.

(** X3: searching a list of directories followed by another gives the
    result for the first list when there is one, and the result for the
    second list otherwise. *)
Theorem find_notebook_app (isfile : string → bool) (fullname : string)
    (ds1 ds2 : list string) :
  ds1 ≠ [] → ds2 ≠ [] →
  find_notebook isfile fullname (Some (ds1 ++ ds2)%list)
  = match find_notebook isfile fullname (Some ds1) with
    | Some f => Some f
    | None => find_notebook isfile fullname (Some ds2)
    end.
Proof.
  intros H1 H2. unfold find_notebook.
  destruct ds1 as [|d1 ds1]; [done |]. destruct ds2 as [|d2 ds2]; [done |].
  change (search_dirs (Some ((d1 :: ds1) ++ d2 :: ds2)%list))
    with ((d1 :: ds1) ++ d2 :: ds2)%list.
  rewrite !search_dirs_given. apply find_in_app.
Qed.

Lemma find_notebook_app_witness :
  find_notebook (isfile_in Ex.files) "m" (Some (["b"] ++ ["a"; "a/b"])%list)
  = match find_notebook (isfile_in Ex.files) "m" (Some ["b"]) with
    | Some f => Some f
    | None => find_notebook (isfile_in Ex.files) "m" (Some ["a"; "a/b"])
    end.
Proof. apply find_notebook_app; discriminate. Defined.

(** ** The finder *)

Lemma find_module_found_raise (self : loc) (fullname : string)
    (path : option (list string)) (st : state) (f : string) :
  find_notebook (isfile_in (fs st)) fullname path = Some f →
  (∀ ls, heap st !! self ≠ Some (Finder ls)) →
  find_module self fullname path st = (Raise AttributeError, st).
Proof.
  intros Hfind Hself.
  unfold find_module, mbind, M_bind, bind, find_notebook_now, finder_loaders.
  rewrite Hfind. simpl. rewrite (find_notebook_truthy _ _ _ _ Hfind). simpl.
  destruct (heap st !! self) as [[d | p | ls] |] eqn:Hs; try done.
  by destruct (Hself ls).
Qed.

Lemma finder_or_not (st : state) (self : loc) :
  (∃ ls, heap st !! self = Some (Finder ls)) ∨
  (∀ ls, heap st !! self ≠ Some (Finder ls)).
Proof.
  destruct (heap st !! self) as [[d | p | ls] |]; try (by right).
  left. by exists ls.
Qed.

(** X4: [find_module] declines, returning [None], exactly when
    [find_notebook] finds nothing, and declining changes nothing. *)
Theorem find_module_declines (self : loc) (fullname : string)
    (path : option (list string)) (st : state) :
  ((find_module self fullname path st).1 = Ok None ↔
   find_notebook (isfile_in (fs st)) fullname path = None) ∧
  ((find_module self fullname path st).1 = Ok None →
   (find_module self fullname path st).2 = st).
Proof.
  destruct (find_notebook (isfile_in (fs st)) fullname path) as [f |] eqn:Hf.
  - assert ((find_module self fullname path st).1 ≠ Ok None) as Hne.
    { destruct (finder_or_not st self) as [[ls Hself] | Hself].
      - rewrite (find_module_found _ _ _ _ _ _ Hself Hf).
        destruct (hash_key _) as [k | e]; [| done]. by destruct (ls !! k).
      - by rewrite (find_module_found_raise _ _ _ _ _ Hf Hself). }
    split; [by split | done].
  - rewrite (find_module_not_found _ _ _ _ Hf). by split.
Qed.

(** X5: [find_module] leaves the module registry, the shell, the file
    system and the output alone, and every object other than the finder
    itself is after the call what it was before; it never runs a
    fragment. *)
Theorem find_module_frame (self : loc) (fullname : string)
    (path : option (list string)) (st : state) :
  let st' := (find_module self fullname path st).2 in
  sys_modules st' = sys_modules st ∧ user_ns st' = user_ns st ∧
  fs st' = fs st ∧ stdout st' = stdout st ∧
  ∀ l o, l ≠ self → heap st !! l = Some o → heap st' !! l = Some o.
Proof.
  intros st'. subst st'.
  destruct (find_notebook (isfile_in (fs st)) fullname path) as [f |] eqn:Hf;
    [| by rewrite (find_module_not_found _ _ _ _ Hf)].
  destruct (finder_or_not st self) as [[ls Hself] | Hself];
    [| by rewrite (find_module_found_raise _ _ _ _ _ Hf Hself)].
  rewrite (find_module_found _ _ _ _ _ _ Hself Hf).
  destruct (hash_key _) as [k | e]; [| done].
  destruct (ls !! k) as [l0 |]; [done |]. simpl.
  repeat split. intros l o Hl Ho.
  rewrite lookup_insert_ne by done. rewrite lookup_insert_ne; [done |].
  intros <-. apply (fresh_loc_new st), elem_of_dom. by eexists.
Qed.

Lemma finder_key_None (p : option (list string)) :
  finder_key p = KNone → p = None.
Proof. by destruct p as [[|d ds] |]. Qed.

Lemma NotebookFinder_keyed (st st' : state) (self : loc) :
  NotebookFinder st = (Ok self, st') → finder_keyed st' self.
Proof.
  unfold NotebookFinder, alloc. intros [= <- <-]. exists ∅. simpl.
  split; [apply lookup_insert_eq |]. intros k l. by rewrite lookup_empty.
Qed.

(** X6: in a cache where every loader sits under the key of its own
    search path, a loader returned by [find_module] has a search path
    with the key of the requested one, the requested path itself when
    that is [None], and the cache stays that way. *)
Theorem find_module_keyed (self : loc) (fullname : string)
    (path : option (list string)) (st st' : state) (l : loc) :
  finder_keyed st self →
  find_module self fullname path st = (Ok (Some l), st') →
  finder_keyed st' self ∧
  ∃ p, heap st' !! l = Some (Loader p) ∧
       finder_key p = finder_key path ∧
       (path = None → p = None).
Proof.
  intros (ls & Hself & Hkeyed) H.
  destruct (find_module_returns _ _ _ _ _ _ _ Hself H)
    as (k & Hk & [[Hhit ->] | (Hmiss & Hl & ->)]).
  - split; [by exists ls |].
    destruct (Hkeyed _ _ Hhit) as (p & Hp & Hkp). exists p.
    split; [done |].
    assert (finder_key p = finder_key path) as Hkey.
    { by apply (hash_key_inj (finder_key p) (finder_key path) k k). }
    split; [done |]. intros ->. by apply finder_key_None.
  - assert (l ∉ dom (heap st)) as Hnew by (subst l; apply fresh_loc_new).
    assert (l ≠ self) as Hne.
    { intros ->. apply Hnew, elem_of_dom. by eexists. }
    split.
    + exists (<[k := l]> ls). simpl. split; [apply lookup_insert_eq |].
      intros k' l' Hl'. destruct (decide (k = k')) as [<- | Hkk].
      * rewrite lookup_insert_eq in Hl'. injection Hl' as <-.
        exists path. rewrite lookup_insert_ne by done.
        by rewrite lookup_insert_eq.
      * rewrite lookup_insert_ne in Hl' by done.
        destruct (Hkeyed _ _ Hl') as (p & Hp & Hkp). exists p.
        split; [| done].
        rewrite lookup_insert_ne by congruence.
        rewrite lookup_insert_ne; [done |].
        intros <-. apply Hnew, elem_of_dom. by eexists.
    + exists path. simpl. rewrite lookup_insert_ne by done.
      by rewrite lookup_insert_eq.
Qed.

Lemma find_module_keyed_witness :
  let start := NotebookFinder Ex.st0 in
  let out := find_module 4%positive "m" (Some ["a"; "b"]) start.2 in
  out.1 = Ok (Some 5%positive) ∧
  ∃ p, heap out.2 !! 5%positive = Some (Loader p) ∧
       finder_key p = finder_key (Some ["a"; "b"]).
Proof.
  split; [vm_compute; reflexivity |].
  destruct (find_module_keyed 4%positive "m" (Some ["a"; "b"])
              (NotebookFinder Ex.st0).2
              (find_module 4%positive "m" (Some ["a"; "b"])
                 (NotebookFinder Ex.st0).2).2
              5%positive) as (_ & p & Hp & Hkey & _).
  - apply (NotebookFinder_keyed Ex.st0). vm_compute; reflexivity.
  - vm_compute; reflexivity.
  - exists p. by split.
Defined.

(** X7: for a top-level import (search path [None]) the loader that
    [find_module] returns reads the very file the finder found: in the
    state after the call [load_module] on that loader gets that file,
    and its document when the file parses. *)
Theorem find_module_then_load (self : loc) (fullname : string)
    (st st' : state) (l : loc) :
  finder_keyed st self →
  find_module self fullname None st = (Ok (Some l), st') →
  ∃ f, find_notebook (isfile_in (fs st)) fullname None = Some f ∧
    located st' l fullname
    = match fs st !! f with
      | Some (WellFormed nb) => Some (f, nb)
      | _ => None
      end.
Proof.
  intros (ls & Hself & Hkeyed) H.
  assert (heap st' !! l = Some (Loader None) ∧ fs st' = fs st) as [Hp Hfs].
  { destruct (find_module_returns _ _ _ _ _ _ _ Hself H)
      as (k & Hk & [[Hhit ->] | (Hmiss & Hl & ->)]).
    - split; [| done]. destruct (Hkeyed _ _ Hhit) as (p & Hp & Hkp).
      rewrite Hp. do 2 f_equal. apply finder_key_None.
      by apply (hash_key_inj (finder_key p) (finder_key None) k k).
    - split; [| done]. simpl. rewrite lookup_insert_ne.
      + by rewrite lookup_insert_eq.
      + intros <-. apply (fresh_loc_new st). rewrite <- Hl.
        apply elem_of_dom. by eexists. }
  destruct (find_notebook (isfile_in (fs st)) fullname None) as [f |] eqn:Hf.
  - exists f. split; [done |]. unfold located. by rewrite Hp, Hfs, Hf.
  - by rewrite (find_module_not_found _ _ _ _ Hf) in H.
Qed.

Lemma find_module_then_load_witness :
  let start := NotebookFinder Ex.st0 in
  let out := find_module 4%positive "pkg.xy" None start.2 in
  out.1 = Ok (Some 5%positive) ∧
  located out.2 5%positive "pkg.xy" = Some ("xy.ipynb", Ex.nb_xy).
Proof.
  split; [vm_compute; reflexivity |].
  destruct (find_module_then_load 4%positive "pkg.xy"
              (NotebookFinder Ex.st0).2
              (find_module 4%positive "pkg.xy" None
                 (NotebookFinder Ex.st0).2).2
              5%positive) as (f & Hf & Hloc).
  - apply (NotebookFinder_keyed Ex.st0). vm_compute; reflexivity.
  - vm_compute; reflexivity.
  - rewrite Hloc. assert (f = "xy.ipynb") as ->.
    { assert (Some f = Some "xy.ipynb") as Heq
        by (rewrite <- Hf; vm_compute; reflexivity).
      by injection Heq. }
    vm_compute; reflexivity.
Defined.

(** ** More on the loader *)

(** X8: when [find_notebook] finds nothing, [load_module] announces the
    import of [None] and raises [TypeError] from [io.open]; nothing is
    registered and no module is created. *)
Theorem load_module_not_found (transform_cell : string → result string)
    (exec : string → loc → M unit) (self : loc) (fullname : string)
    (st : state) (p : option (list string)) :
  heap st !! self = Some (Loader p) →
  find_notebook (isfile_in (fs st)) fullname p = None →
  load_module transform_cell exec self fullname st
  = (Raise TypeError,
     set_stdout (stdout st ++ ["importing Jupyter notebook from None"])%list
       st).
Proof.
  intros Hself Hfind.
  unfold load_module, mbind, M_bind, bind, loader_path, find_notebook_now,
    print, open_read.
  by rewrite Hself, Hfind.
Qed.

Lemma load_module_not_found_witness :
  load_module Mini.transform_cell Mini.exec Ex.loader "missing" Ex.st0
  = (Raise TypeError,
     set_stdout ["importing Jupyter notebook from None"] Ex.st0).
Proof.
  refine (load_module_not_found Mini.transform_cell Mini.exec Ex.loader
            "missing" Ex.st0 None _ _); vm_compute; reflexivity.
Defined.

(** ** [show_notebook] *)

Section ShowFacts.

Variable highlight : string → string.

(** The markup of one cell: its heading and its body. *)
Lemma show_cell_app (html : list string) (c : cell) :
  show_cell highlight html c
  = (html ++ ["<h4>" +:+ cell_type c +:+ " cell</h4>";
              if String.eqb (cell_type c) "code" then highlight (source c)
              else "<pre>" +:+ source c +:+ "</pre>"])%list.
Proof.
  unfold show_cell. destruct (String.eqb _ _); by rewrite <- app_assoc.
Qed.

Lemma show_cells_lookup (cs : list cell) (html : list string) :
  length (foldl (show_cell highlight) html cs)
    = (length html + 2 * length cs)%nat ∧
  (∀ i s, html !! i = Some s →
          foldl (show_cell highlight) html cs !! i = Some s) ∧
  ∀ k c, cs !! k = Some c →
    foldl (show_cell highlight) html cs !! (length html + 2 * k)%nat
      = Some ("<h4>" +:+ cell_type c +:+ " cell</h4>") ∧
    foldl (show_cell highlight) html cs !! (length html + 2 * k + 1)%nat
      = Some (if String.eqb (cell_type c) "code" then highlight (source c)
              else "<pre>" +:+ source c +:+ "</pre>").
Proof.
  revert html. induction cs as [|c cs IH]; intros html.
  { simpl. split; [lia |]. split; [done |]. intros k c Hk. done. }
  simpl. rewrite show_cell_app.
  destruct (IH (html ++ ["<h4>" +:+ cell_type c +:+ " cell</h4>";
              if String.eqb (cell_type c) "code" then highlight (source c)
              else "<pre>" +:+ source c +:+ "</pre>"])%list)
    as (Hlen & Hkeep & Hcells).
  rewrite length_app in Hlen, Hcells. cbn [length] in Hlen, Hcells.
  split; [lia |]. split.
  - intros i s Hi. apply Hkeep. by apply lookup_app_l_Some.
  - intros [|k] c' Hk.
    + injection Hk as <-. split.
      * apply Hkeep. rewrite lookup_app_r by lia.
        match goal with
        | |- _ !! ?n = _ => replace n with 0%nat by lia
        end. done.
      * apply Hkeep. rewrite lookup_app_r by lia.
        match goal with
        | |- _ !! ?n = _ => replace n with 1%nat by lia
        end. done.
    + destruct (Hcells k c' Hk) as [Hh Hb]. split.
      * rewrite <- Hh. f_equal. lia.
      * rewrite <- Hb. f_equal. lia.
Qed.

(** X9: for a readable notebook [show_notebook] displays the cells in
    document order, two pieces per cell joined by newlines: a heading
    with the cell type, then the highlighted source of a code cell or
    the source of any other cell between [<pre>] tags, unescaped; the
    state is not changed. *)
Theorem show_notebook_parts (fname : string) (nb : notebook) (st : state) :
  fs st !! fname = Some (WellFormed nb) →
  ∃ html,
    show_notebook highlight fname st = (Ok (join_newline html), st) ∧
    length html = (2 * length (cells nb))%nat ∧
    ∀ k c, cells nb !! k = Some c →
      html !! (2 * k)%nat = Some ("<h4>" +:+ cell_type c +:+ " cell</h4>") ∧
      html !! (2 * k + 1)%nat
        = Some (if String.eqb (cell_type c) "code" then highlight (source c)
                else "<pre>" +:+ source c +:+ "</pre>").
Proof.
  intros Hf. exists (foldl (show_cell highlight) [] (cells nb)).
  destruct (show_cells_lookup (cells nb) []) as (Hlen & _ & Hcells).
  split; [| split].
  - unfold show_notebook, mbind, M_bind, bind, open_read. by rewrite Hf.
  - exact Hlen.
  - exact Hcells.
Qed.

End ShowFacts.

Lemma show_notebook_parts_witness :
  ∃ html,
    show_notebook (λ s, "<code>" +:+ s +:+ "</code>") "xy.ipynb" Ex.st0
      = (Ok (join_newline html), Ex.st0) ∧
    length html = 6%nat.
Proof.
  destruct (show_notebook_parts (λ s, "<code>" +:+ s +:+ "</code>")
              "xy.ipynb" Ex.nb_xy Ex.st0) as (html & Hshow & Hlen & _).
  - vm_compute; reflexivity.
  - exists html. by split.
Defined.

(** * The linear-algebra helpers *)

Module LinAlgFacts.

Import LinAlg.

Local Open Scope Z_scope.

Lemma py_sum_from (a : Z) (xs : list Z) : foldl Z.add a xs = a + py_sum xs.
Proof.
  unfold py_sum. revert a. induction xs as [|x xs IH]; intros a; simpl; [lia |].
  rewrite (IH (a + x)), (IH (0 + x)). lia.
Qed.

Lemma py_sum_cons (x : Z) (xs : list Z) : py_sum (x :: xs) = x + py_sum xs.
Proof. unfold py_sum at 1. simpl. apply py_sum_from. Qed.

Lemma dot_nil_l (w : list Z) : dot [] w = 0.
Proof. reflexivity. Qed.

Lemma dot_nil_r (v : list Z) : dot v [] = 0.
Proof. by destruct v. Qed.

Lemma dot_cons (a b : Z) (v w : list Z) :
  dot (a :: v) (b :: w) = a * b + dot v w.
Proof. unfold dot. simpl. apply py_sum_cons. Qed.

Lemma sum_of_squares_cons (a : Z) (v : list Z) :
  sum_of_squares (a :: v) = a * a + sum_of_squares v.
Proof. apply dot_cons. Qed.

Lemma sum_of_squares_nonneg (v : list Z) : 0 ≤ sum_of_squares v.
Proof.
  induction v as [|a v IH]; [done |]. rewrite sum_of_squares_cons. nia.
Qed.

Lemma lookup_vector_add (v w : list Z) (i : nat) :
  vector_add v w !! i
  = match v !! i, w !! i with
    | Some a, Some b => Some (a + b)
    | _, _ => None
    end.
Proof.
  unfold vector_add.
  revert w i. induction v as [|a v IH]; intros [|b w] [|i]; try done.
  - simpl. by destruct (v !! i).
  - simpl. apply IH.
Qed.

(** X10: [vector_add] adds componentwise up to the end of the shorter
    vector and silently drops the rest of the longer one. *)
Theorem vector_add_lookup (v w : list Z) :
  length (vector_add v w) = (length v `min` length w)%nat ∧
  ∀ i : nat,
    vector_add v w !! i
    = match v !! i, w !! i with
      | Some a, Some b => Some (a + b)
      | _, _ => None
      end.
Proof.
  split; [| apply lookup_vector_add].
  unfold vector_add. by rewrite length_fmap, length_zip_with.
Qed.

(** X11: [vector_add] is commutative and associative, whatever the
    lengths of the vectors. *)
Theorem vector_add_comm_assoc (u v w : list Z) :
  vector_add v w = vector_add w v ∧
  vector_add (vector_add u v) w = vector_add u (vector_add v w).
Proof.
  split.
  - revert w. induction v as [|a v IH]; intros [|b w]; try done.
    unfold vector_add in *. simpl. f_equal; [lia | apply IH].
  - revert v w. induction u as [|a u IH]; intros [|b v] [|c w]; try done.
    unfold vector_add in *. simpl. f_equal; [lia | apply IH].
Qed.

(** X12: on integer vectors, adding [w] back after subtracting it gives
    [v] again, cut to the length of [w] when [w] is the shorter one. *)
Theorem vector_subtract_add (v w : list Z) :
  vector_add (vector_subtract v w) w = take (length w) v.
Proof.
  revert w. induction v as [|a v IH]; intros [|b w]; try done.
  unfold vector_add, vector_subtract in *. simpl. f_equal; [lia | apply IH].
Qed.

(** X13: with integer scalars and integer vectors, [scalar_multiply]
    distributes over [vector_add], composes by multiplying the scalars,
    and is the identity for the scalar 1. *)
Theorem scalar_multiply_linear (c d : Z) (v w : list Z) :
  scalar_multiply c (vector_add v w)
    = vector_add (scalar_multiply c v) (scalar_multiply c w) ∧
  scalar_multiply c (scalar_multiply d v) = scalar_multiply (c * d) v ∧
  scalar_multiply 1 v = v.
Proof.
  split; [| split].
  - revert w. induction v as [|a v IH]; intros [|b w]; try done.
    unfold scalar_multiply, vector_add in *. simpl. f_equal; [lia | apply IH].
  - induction v as [|a v IH]; [done |].
    unfold scalar_multiply in *. simpl. f_equal; [lia | apply IH].
  - induction v as [|a v IH]; [done |].
    unfold scalar_multiply in *. simpl. f_equal; [by destruct a | apply IH].
Qed.

(** X14: on integer vectors and for an integer scalar, [dot] is
    symmetric and homogeneous in each argument. *)
Theorem dot_comm_scalar (c : Z) (v w : list Z) :
  dot v w = dot w v ∧
  dot (scalar_multiply c v) w = c * dot v w ∧
  dot v (scalar_multiply c w) = c * dot v w.
Proof.
  split; [| split]; revert w; induction v as [|a v IH]; intros [|b w];
    rewrite ?dot_nil_l, ?dot_nil_r; try done; try lia.
  - rewrite !dot_cons, IH. lia.
  - change (scalar_multiply c (a :: v)) with (c * a :: scalar_multiply c v).
    rewrite !dot_cons, IH. lia.
  - change (scalar_multiply c (b :: w)) with (c * b :: scalar_multiply c w).
    rewrite !dot_cons, IH. lia.
Qed.

(** X15: on integer vectors, [dot] is additive in its first argument
    for two vectors of the same length. *)
Theorem dot_vector_add (u v w : list Z) :
  length u = length v →
  dot (vector_add u v) w = dot u w + dot v w.
Proof.
  revert v w. induction u as [|a u IH]; intros [|b v] [|c w] Hlen;
    rewrite ?dot_nil_r; try done; simpl in Hlen.
  change (vector_add (a :: u) (b :: v)) with (a + b :: vector_add u v).
  rewrite !dot_cons, IH by lia. lia.
Qed.

Lemma dot_vector_add_witness :
  dot (vector_add [1; 2] [3; 4]) [5; 6] = dot [1; 2] [5; 6] + dot [3; 4] [5; 6].
Proof. apply dot_vector_add. reflexivity. Defined.

(** X16: [sum_of_squares] is never negative, and it is zero exactly for
    the vectors whose components are all zero. *)
Theorem sum_of_squares_zero (v : list Z) :
  0 ≤ sum_of_squares v ∧
  (sum_of_squares v = 0 ↔ Forall (λ x, x = 0) v).
Proof.
  split; [apply sum_of_squares_nonneg |].
  induction v as [|a v IH]; [done |].
  rewrite sum_of_squares_cons, Forall_cons.
  pose proof (sum_of_squares_nonneg v). split.
  - intros Hs. assert (a = 0) by nia. split; [done |]. apply IH. nia.
  - intros [-> Hv]. apply IH in Hv. lia.
Qed.

Lemma cauchy_schwarz_step (a b D A B : Z) :
  0 ≤ A → 0 ≤ B → D * D ≤ A * B →
  (a * b + D) * (a * b + D) ≤ (a * a + A) * (b * b + B).
Proof.
  intros HA HB HD.
  assert (2 * (a * b * D) ≤ a * a * B + b * b * A) as Hmid.
  { destruct (Z.eq_dec B 0) as [-> | HB0].
    - assert (D = 0) as -> by nia. nia.
    - assert (0 ≤ (a * B - b * D) * (a * B - b * D)) as Hsq
        by apply Z.square_nonneg.
      assert (b * b * (D * D) ≤ b * b * (A * B)) as Hb.
      { apply Z.mul_le_mono_nonneg_l; [apply Z.square_nonneg | assumption]. }
      assert (0 ≤ B * (a * a * B + b * b * A - 2 * (a * b * D))) as Hp by nia.
      assert (0 < B) by lia.
      assert (0 ≤ a * a * B + b * b * A - 2 * (a * b * D)).
      { apply Z.mul_nonneg_cancel_l with B; assumption. }
      lia. }
  nia.
Qed.

(** X17: the Cauchy-Schwarz inequality, also for vectors of different
    lengths. *)
Theorem cauchy_schwarz (v w : list Z) :
  dot v w * dot v w ≤ sum_of_squares v * sum_of_squares w.
Proof.
  revert w. induction v as [|a v IH]; intros [|b w].
  - done.
  - rewrite dot_nil_l. pose proof (sum_of_squares_nonneg (b :: w)).
    change (sum_of_squares []) with 0. lia.
  - rewrite dot_nil_r. change (sum_of_squares []) with 0. lia.
  - rewrite dot_cons, !sum_of_squares_cons.
    apply cauchy_schwarz_step; [apply sum_of_squares_nonneg .. | apply IH].
Qed.

(** X18: on integer vectors, [squared_distance] is symmetric and never
    negative, and it is zero exactly when the two vectors agree on the
    components they both have. *)
Theorem squared_distance_zero (v w : list Z) :
  squared_distance v w = squared_distance w v ∧
  0 ≤ squared_distance v w ∧
  (squared_distance v w = 0 ↔ take (length w) v = take (length v) w).
Proof.
  unfold squared_distance. split; [| split].
  - revert w. induction v as [|a v IH]; intros [|b w]; try done.
    change (vector_subtract (a :: v) (b :: w))
      with (a - b :: vector_subtract v w).
    change (vector_subtract (b :: w) (a :: v))
      with (b - a :: vector_subtract w v).
    rewrite !sum_of_squares_cons, IH. lia.
  - apply sum_of_squares_nonneg.
  - revert w. induction v as [|a v IH]; intros [|b w]; try done.
    change (vector_subtract (a :: v) (b :: w))
      with (a - b :: vector_subtract v w).
    rewrite sum_of_squares_cons. simpl.
    pose proof (sum_of_squares_nonneg (vector_subtract v w)).
    split.
    + intros Hs. assert (a = b) as -> by nia. f_equal. apply IH. nia.
    + intros [= -> Hvw]. apply IH in Hvw. lia.
Qed.

(** ** Subscripts and comprehensions *)

Lemma len_nonneg {A} (l : list A) : 0 ≤ len l.
Proof. unfold len. lia. Qed.

Lemma index_in_range {A} (l : list A) (k : nat) (x : A) :
  l !! k = Some x → index l (Z.of_nat k) = Val x.
Proof.
  intros Hk. pose proof (lookup_lt_Some _ _ _ Hk) as Hlt.
  unfold index, len.
  rewrite (proj2 (Z.ltb_ge _ _)) by lia.
  rewrite (proj2 (Z.leb_le _ _)) by lia.
  rewrite (proj2 (Z.ltb_lt _ _)) by lia. simpl.
  by rewrite Nat2Z.id, Hk.
Qed.

Lemma index_negative {A} (l : list A) (k : nat) (x : A) :
  l !! k = Some x → index l (Z.of_nat k - len l) = Val x.
Proof.
  intros Hk. pose proof (lookup_lt_Some _ _ _ Hk) as Hlt.
  unfold index, len.
  rewrite (proj2 (Z.ltb_lt _ _)) by lia.
  replace (Z.of_nat k - Z.of_nat (length l) + Z.of_nat (length l))
    with (Z.of_nat k) by lia.
  rewrite (proj2 (Z.leb_le _ _)) by lia.
  rewrite (proj2 (Z.ltb_lt _ _)) by lia. simpl.
  by rewrite Nat2Z.id, Hk.
Qed.

Lemma index_out_of_range {A} (l : list A) (i : Z) :
  i < - len l ∨ len l ≤ i → index l i = Err IndexError.
Proof.
  intros Hi. pose proof (len_nonneg l). unfold index.
  destruct (Z.ltb_spec i 0).
  - rewrite (proj2 (Z.leb_gt _ _)) by lia. done.
  - rewrite (proj2 (Z.ltb_ge _ _)) by lia. by rewrite andb_false_r.
Qed.

Lemma index_error {A} (l : list A) (i : Z) (e : error) :
  index l i = Err e → e = IndexError.
Proof.
  unfold index. destruct (_ && _); [| by intros [= <-]].
  destruct (l !! _); [done | by intros [= <-]].
Qed.

Lemma entry_error (A : list (list Z)) (i j : Z) (e : error) :
  entry A i j = Err e → e = IndexError.
Proof.
  unfold entry. destruct (index A i) as [A_i | e'] eqn:Hi.
  - apply index_error.
  - intros [= <-]. by apply index_error in Hi.
Qed.

Lemma comprehension_ext {A B} (f g : A → res B) (l : list A) :
  (∀ x, x ∈ l → f x = g x) → comprehension f l = comprehension g l.
Proof.
  induction l as [|x l IH]; intros Hfg; [done |]. simpl.
  rewrite (Hfg x) by (apply elem_of_cons; by left).
  rewrite IH; [done |]. intros y Hy. apply Hfg, elem_of_cons. by right.
Qed.

Lemma comprehension_Val {A B} (f : A → B) (l : list A) :
  comprehension (λ x, Val (f x)) l = Val (f <$> l).
Proof. induction l as [|x l IH]; [done |]. simpl. by rewrite IH. Qed.




Lemma length_range (n : Z) : length (range n) = Z.to_nat n.
Proof. unfold range. by rewrite length_fmap, length_seq. Qed.

Lemma lookup_range (n : Z) (k : nat) :
  (k < Z.to_nat n)%nat → range n !! k = Some (Z.of_nat k).
Proof.
  intros Hk. unfold range. rewrite list_lookup_fmap, lookup_seq_lt by done.
  done.
Qed.

Lemma make_matrix_pure (num_rows num_cols : Z) (f : Z → Z → Z) :
  make_matrix num_rows num_cols (λ i j, Val (f i j))
  = Val ((λ i, (λ j, f i j) <$> range num_cols) <$> range num_rows).
Proof.
  unfold make_matrix.
  rewrite (comprehension_ext _
    (λ i, Val ((λ j, f i j) <$> range num_cols))).
  - apply comprehension_Val.
  - intros i _. apply comprehension_Val.
Qed.

(** ** Matrices *)

Lemma lookup_make_matrix (num_rows num_cols : Z) (f : Z → Z → Z) (k : nat) :
  (k < Z.to_nat num_rows)%nat →
  ((λ i, (λ j, f i j) <$> range num_cols) <$> range num_rows) !! k
  = Some ((λ j, f (Z.of_nat k) j) <$> range num_cols).
Proof. intros Hk. by rewrite list_lookup_fmap, lookup_range. Qed.

Lemma lookup_make_row (num_cols : Z) (g : Z → Z) (k : nat) :
  (k < Z.to_nat num_cols)%nat →
  (g <$> range num_cols) !! k = Some (g (Z.of_nat k)).
Proof. intros Hk. by rewrite list_lookup_fmap, lookup_range. Qed.

(** X19: [make_matrix] with an entry function that does not raise
    returns a matrix whose [shape] is the requested one when there is at
    least one row; with no row the column count is lost and the shape is
    [(0, 0)]; negative sizes count as zero. *)
Theorem make_matrix_shape (num_rows num_cols : Z) (f : Z → Z → Z) :
  ∃ M, make_matrix num_rows num_cols (λ i j, Val (f i j)) = Val M ∧
    shape M = (Z.max 0 num_rows,
               if 0 <? num_rows then Z.max 0 num_cols else 0).
Proof.
  rewrite make_matrix_pure. eexists. split; [done |].
  unfold shape, len. rewrite length_fmap, length_range. f_equal; [lia |].
  destruct (Z.ltb_spec 0 num_rows) as [Hr | Hr].
  - unfold range at 2. destruct (Z.to_nat num_rows) as [|n] eqn:Hn; [lia |].
    simpl. rewrite length_fmap, length_range. lia.
  - unfold range at 2. by replace (Z.to_nat num_rows) with 0%nat by lia.
Qed.

(** X20: the [(i, j)] entry of the matrix built by [make_matrix] is
    [entry_fn(i, j)]; the same entry is reached with the negative
    subscripts [i - num_rows] and [j - num_cols], and the subscripts
    [num_rows] and [num_cols] raise [IndexError]. *)
Theorem make_matrix_entry (num_rows num_cols : Z) (f : Z → Z → Z)
    (M : list (list Z)) (i j : Z) :
  make_matrix num_rows num_cols (λ i j, Val (f i j)) = Val M →
  0 ≤ i < num_rows → 0 ≤ j < num_cols →
  entry M i j = Val (f i j) ∧
  entry M (i - num_rows) (j - num_cols) = Val (f i j) ∧
  entry M num_rows j = Err IndexError ∧
  entry M i num_cols = Err IndexError.
Proof.
  rewrite make_matrix_pure. intros [= <-] Hi Hj.
  set (M := (λ i, (λ j, f i j) <$> range num_cols) <$> range num_rows).
  assert (len M = num_rows) as HlenM.
  { unfold M, len. rewrite length_fmap, length_range. lia. }
  assert (M !! Z.to_nat i = Some ((λ j, f i j) <$> range num_cols)) as Hrow.
  { unfold M. rewrite lookup_make_matrix by lia. by rewrite Z2Nat.id by lia. }
  set (row := (λ j, f i j) <$> range num_cols) in *.
  assert (len row = num_cols) as Hlenrow.
  { unfold row, len. rewrite length_fmap, length_range. lia. }
  assert (row !! Z.to_nat j = Some (f i j)) as Hcol.
  { unfold row. rewrite lookup_make_row by lia. by rewrite Z2Nat.id by lia. }
  pose proof (index_in_range _ _ _ Hrow) as H1.
  pose proof (index_negative _ _ _ Hrow) as H2.
  pose proof (index_in_range _ _ _ Hcol) as H3.
  pose proof (index_negative _ _ _ Hcol) as H4.
  rewrite Z2Nat.id in H1, H2, H3, H4 by lia.
  rewrite HlenM in H2. rewrite Hlenrow in H4.
  unfold entry. rewrite H1, H2, H3, H4.
  repeat split.
  - rewrite index_out_of_range; [done | lia].
  - rewrite index_out_of_range; [done | lia].
Qed.

Lemma make_matrix_entry_witness :
  entry [[0; 1; 2]; [10; 11; 12]] 1 2 = Val 12 ∧
  entry [[0; 1; 2]; [10; 11; 12]] (1 - 2) (2 - 3) = Val 12 ∧
  entry [[0; 1; 2]; [10; 11; 12]] 2 2 = Err IndexError ∧
  entry [[0; 1; 2]; [10; 11; 12]] 1 3 = Err IndexError.
Proof.
  refine (make_matrix_entry 2 3 (λ i j, 10 * i + j) _ 1 2 _ _ _);
    [reflexivity | lia | lia].
Defined.

(** X21: the [j]-th column of the matrix built by [make_matrix] lists
    [entry_fn(i, j)] over the rows, and it is the [j]-th row of the
    matrix built with the sizes and the subscripts swapped. *)
Theorem get_column_make_matrix (num_rows num_cols : Z) (f : Z → Z → Z)
    (M Mt : list (list Z)) (j : Z) :
  make_matrix num_rows num_cols (λ i j, Val (f i j)) = Val M →
  make_matrix num_cols num_rows (λ j i, Val (f i j)) = Val Mt →
  0 ≤ j < num_cols →
  get_column M j = Val ((λ i, f i j) <$> range num_rows) ∧
  get_row Mt j = get_column M j.
Proof.
  rewrite !make_matrix_pure. intros [= <-] [= <-] Hj.
  assert (get_column
            ((λ i, (λ j, f i j) <$> range num_cols) <$> range num_rows) j
          = Val ((λ i, f i j) <$> range num_rows)) as Hcol.
  { unfold get_column.
    induction (range num_rows) as [|i l IH]; [done |].
    rewrite !fmap_cons. cbn [comprehension].
    assert (((λ j, f i j) <$> range num_cols) !! Z.to_nat j = Some (f i j))
      as Hl.
    { rewrite lookup_make_row by lia. by rewrite Z2Nat.id by lia. }
    apply index_in_range in Hl. rewrite Z2Nat.id in Hl by lia.
    by rewrite Hl, IH. }
  split; [exact Hcol |]. rewrite Hcol. unfold get_row.
  assert (((λ j, (λ i, f i j) <$> range num_rows) <$> range num_cols)
            !! Z.to_nat j = Some ((λ i, f i j) <$> range num_rows)) as Hl.
  { rewrite (lookup_make_matrix num_cols num_rows (λ j i, f i j)) by lia.
    by rewrite Z2Nat.id by lia. }
  apply index_in_range in Hl. by rewrite Z2Nat.id in Hl by lia.
Qed.

Lemma get_column_make_matrix_witness :
  get_column [[0; 1; 2]; [10; 11; 12]] 1 = Val [1; 11] ∧
  get_row [[0; 10]; [1; 11]; [2; 12]] 1
  = get_column [[0; 1; 2]; [10; 11; 12]] 1.
Proof.
  refine (get_column_make_matrix 2 3 (λ i j, 10 * i + j) _ _ 1 _ _ _);
    [reflexivity | reflexivity | lia].
Defined.

Lemma dot_diagonal_seq (i s : nat) (v : list Z) :
  dot ((λ j, is_diagonal (Z.of_nat i) (Z.of_nat j)) <$> seq s (length v)) v
  = if decide (s ≤ i)%nat then default 0 (v !! (i - s)%nat) else 0.
Proof.
  revert s. induction v as [|a v IH]; intros s.
  { simpl. by destruct (decide _). }
  cbn [length seq]. rewrite fmap_cons, dot_cons, IH. unfold is_diagonal.
  destruct (Z.eqb_spec (Z.of_nat i) (Z.of_nat s)) as [Heq | Hne].
  - assert (i = s) as -> by lia.
    rewrite decide_False by lia. rewrite decide_True by lia.
    replace (s - s)%nat with 0%nat by lia. simpl. lia.
  - destruct (decide (S s ≤ i)%nat) as [Hle | Hgt].
    + rewrite decide_True by lia.
      replace (i - s)%nat with (S (i - S s)) by lia. simpl. lia.
    + rewrite decide_False by lia. lia.
Qed.

(** X22: a row of the matrix [make_matrix(n, n, is_diagonal)] picks a
    component of an integer vector: the dot product of its [i]-th row
    with an integer vector of length [n] is the [i]-th component of the
    vector. *)
Theorem identity_row_selects (n : Z) (M : list (list Z)) (v : list Z)
    (i : nat) (x : Z) :
  make_matrix n n (λ i j, Val (is_diagonal i j)) = Val M →
  len v = n → v !! i = Some x →
  ∃ row, get_row M (Z.of_nat i) = Val row ∧ dot row v = x.
Proof.
  rewrite make_matrix_pure. intros [= <-] Hlen Hi.
  pose proof (lookup_lt_Some _ _ _ Hi) as Hlt. unfold len in Hlen.
  exists ((λ j, is_diagonal (Z.of_nat i) j) <$> range n). split.
  - unfold get_row. apply index_in_range.
    apply (lookup_make_matrix n n is_diagonal). lia.
  - unfold range. rewrite <- list_fmap_compose.
    replace (Z.to_nat n) with (length v) by lia.
    etrans; [apply (dot_diagonal_seq i 0 v) |].
    rewrite decide_True by lia.
    replace (i - 0)%nat with i by lia. by rewrite Hi.
Qed.

Lemma identity_row_selects_witness :
  ∃ row,
    (match identity_matrix with
     | Val M => get_row M 3
     | Err e => Err e
     end) = Val row ∧
    dot row [7; 8; 9; 10; 11] = 10.
Proof.
  exact (identity_row_selects 5
           [[1; 0; 0; 0; 0]; [0; 1; 0; 0; 0]; [0; 0; 1; 0; 0];
            [0; 0; 0; 1; 0]; [0; 0; 0; 0; 1]]
           [7; 8; 9; 10; 11] 3 10 eq_refl eq_refl eq_refl).
Defined.

(** ** [matrix_add] *)


Lemma matrix_add_entry_fn_comm (A B : list (list Z)) (i j : Z) :
  matrix_add_entry_fn A B i j = matrix_add_entry_fn B A i j.
Proof.
  unfold matrix_add_entry_fn.
  destruct (entry A i j) as [a | e1] eqn:Ha,
           (entry B i j) as [b | e2] eqn:Hb; try done.
  - f_equal. lia.
  - apply entry_error in Ha, Hb. by subst.
Qed.



(** X24: [matrix_add] is commutative, on every pair of matrices: the two
    orders return the same matrix or raise the same exception. *)
Theorem matrix_add_comm (A B : list (list Z)) :
  matrix_add A B = matrix_add B A.
Proof.
  unfold matrix_add.
  destruct (decide (shape A = shape B)) as [Hs | Hs].
  - rewrite <- Hs. rewrite !bool_decide_true by done. cbn [negb].
    destruct (shape A) as [num_rows num_cols]. unfold make_matrix.
    apply comprehension_ext. intros i _. apply comprehension_ext.
    intros j _. apply matrix_add_entry_fn_comm.
  - by rewrite !bool_decide_false by done.
Qed.










End LinAlgFacts.
